(** * vg_cleanup.py: Nutanix volume group cleanup

    A shallow embedding of [vg_cleanup.py] and the properties of its
    teardown workflow.

    Python [str] values are modelled by [string]; a character is a code point
    below 256, which is where the whitespace, line-break and digit tables
    below are exact copies of the ones CPython uses for [str.split],
    [str.strip], [str.splitlines] and the [re] classes [\s] and [\d].

    The control plane is an oracle [proc]: it answers a shell command from
    the history of the commands run before it.  The program threads a trace
    of events (commands run, log records) through a small state monad. *)

From Stdlib Require Import Bool Ascii String List ZArith Lia.
Import ListNotations.

Local Open Scope string_scope.
Local Open Scope list_scope.

(** ** Python strings *)

Module PyStr.

Definition code (c : ascii) : nat := nat_of_ascii c.

(** [Py_UNICODE_ISSPACE] on code points below 256. *)
Definition isspace (c : ascii) : bool :=
  let n := code c in
  (((9 <=? n) && (n <=? 13)) || ((28 <=? n) && (n <=? 32))
   || (n =? 133) || (n =? 160))%nat.

(** [Py_UNICODE_ISLINEBREAK] on code points below 256. *)
Definition islinebreak (c : ascii) : bool :=
  let n := code c in
  (((10 <=? n) && (n <=? 13)) || ((28 <=? n) && (n <=? 30)) || (n =? 133))%nat.

(** Decimal digits: below 256 only [0-9] are in category Nd. *)
Definition isdigit (c : ascii) : bool :=
  let n := code c in ((48 <=? n) && (n <=? 57))%nat.

Definition CR : ascii := ascii_of_nat 13.
Definition LF : ascii := ascii_of_nat 10.

(** [s.startswith(p)] *)
Fixpoint startswith (s p : string) {struct p} : bool :=
  match p with
  | EmptyString => true
  | String a p' =>
      match s with
      | EmptyString => false
      | String b s' => Ascii.eqb a b && startswith s' p'
      end
  end.

(** [sub in s] *)
Fixpoint contains (sub s : string) : bool :=
  startswith s sub ||
  match s with
  | EmptyString => false
  | String _ s' => contains sub s'
  end.

(** [bool(s)]: a string is true when it is not empty. *)
Definition truthy (s : string) : bool :=
  match s with EmptyString => false | _ => true end.

(** [s.lstrip()] *)
Fixpoint lstrip (s : string) : string :=
  match s with
  | EmptyString => EmptyString
  | String c s' => if isspace c then lstrip s' else s
  end.

(** [s.rstrip()] *)
Fixpoint rstrip (s : string) : string :=
  match s with
  | EmptyString => EmptyString
  | String c s' =>
      match rstrip s' with
      | EmptyString => if isspace c then EmptyString else String c EmptyString
      | r => String c r
      end
  end.

(** [s.strip()] *)
Definition strip (s : string) : string := rstrip (lstrip s).

(** [s.split()]: the maximal runs of characters that are not whitespace.
    [split_aux cur s] carries the run being read in [cur]. *)
Fixpoint split_aux (cur s : string) : list string :=
  match s with
  | EmptyString => if truthy cur then [cur] else []
  | String c s' =>
      if isspace c
      then (if truthy cur then cur :: split_aux EmptyString s'
            else split_aux EmptyString s')
      else split_aux (cur ++ String c EmptyString) s'
  end.

Definition split (s : string) : list string := split_aux EmptyString s.

(** [s.splitlines()]: lines end at a line break, CR LF counts as one, and
    a last line that is empty is not reported. *)
Fixpoint splitlines (s : string) : list string :=
  match s with
  | EmptyString => []
  | String c s' =>
      if islinebreak c then
        EmptyString ::
          (if Ascii.eqb c CR then
             match s' with
             | String d s'' => if Ascii.eqb d LF then splitlines s''
                               else splitlines s'
             | EmptyString => splitlines s'
             end
           else splitlines s')
      else
        match splitlines s' with
        | [] => [String c EmptyString]
        | l :: ls => String c l :: ls
        end
  end.

(** [sep.join(l)] *)
Definition join (sep : string) (l : list string) : string :=
  String.concat sep l.

(** [s[n:]] *)
Fixpoint drop (n : nat) (s : string) : string :=
  match n, s with
  | S k, String _ s' => drop k s'
  | _, _ => s
  end.

(** [s[:n]] *)
Fixpoint take (n : nat) (s : string) : string :=
  match n, s with
  | S k, String c s' => String c (take k s')
  | _, _ => EmptyString
  end.

End PyStr.

(** ** The fragment of [re] the script uses

    The three patterns of the script are sequences of literals, greedy
    stars over a character class and one capturing group [(class+)].  The
    matcher backtracks the way [re] does: a greedy item first takes the
    longest run and gives characters back one at a time. *)

Module Re.
Import PyStr.

Inductive Item : Type :=
| Lit (s : string)
| Star (cls : ascii -> bool)
| Group (cls : ascii -> bool).

Definition Pattern := list Item.

(** Length of the longest prefix of [s] made of characters in [cls]. *)
Fixpoint span (cls : ascii -> bool) (s : string) : nat :=
  match s with
  | String c s' => if cls c then S (span cls s') else 0
  | EmptyString => 0
  end.

(** The first success of [f k], [f (k-1)], ..., [f 0]. *)
Fixpoint first_down {A : Type} (f : nat -> option A) (k : nat) : option A :=
  match f k with
  | Some r => Some r
  | None => match k with
            | 0 => None
            | S k' => first_down f k'
            end
  end.

(** A match of the pattern at the start of [s]: the text of the group, if the
    pattern has one, and what is left of [s] after the match. *)
Fixpoint match_here (p : Pattern) (s : string) : option (option string * string) :=
  match p with
  | [] => Some (None, s)
  | Lit l :: p' =>
      if startswith s l then match_here p' (drop (String.length l) s)
      else None
  | Star cls :: p' =>
      first_down (fun k => match_here p' (drop k s)) (span cls s)
  | Group cls :: p' =>
      first_down
        (fun k =>
           match k with
           | 0 => None
           | _ => match match_here p' (drop k s) with
                  | Some (_, rest) => Some (Some (take k s), rest)
                  | None => None
                  end
           end)
        (span cls s)
  end.

(** [re.search(p, s).group(1)], [None] when there is no match. *)
Fixpoint search (p : Pattern) (s : string) : option string :=
  match match_here p s with
  | Some (g, _) => Some (match g with Some t => t | None => EmptyString end)
  | None => match s with
            | EmptyString => None
            | String _ s' => search p s'
            end
  end.

(** [re.findall(p, s)] for a pattern with one group: the groups of the
    matches found from left to right, each search starting where the match
    before it ended.  [skip] counts the characters of the last match still to
    be passed over. *)
Fixpoint findall_from (p : Pattern) (skip : nat) (s : string) : list string :=
  match skip with
  | S k =>
      match s with
      | EmptyString => []
      | String _ s' => findall_from p k s'
      end
  | 0 =>
      match match_here p s with
      | Some (g, rest) =>
          (match g with Some t => t | None => EmptyString end) ::
            match s with
            | EmptyString => []
            | String _ s' =>
                findall_from p (String.length s - String.length rest - 1) s'
            end
      | None =>
          match s with
          | EmptyString => []
          | String _ s' => findall_from p 0 s'
          end
      end
  end.

Definition findall (p : Pattern) (s : string) : list string :=
  findall_from p 0 s.

(** The double quote character, code point 34 (written \x22 below). *)
Definition dquote : ascii := ascii_of_nat 34.
Definition notquote (c : ascii) : bool := negb (Ascii.eqb c dquote).
Definition notbrace (c : ascii) : bool := negb (Ascii.eqb c "}"%char).

(** [r'volume_group_attachment_type: \x22([^\x22]+)\x22'] *)
Definition attachment_type_re : Pattern :=
  [Lit "volume_group_attachment_type: "; Lit (String dquote EmptyString);
   Group notquote; Lit (String dquote EmptyString)].

(** [r'attachment_list\s*{[^}]*vm_uuid:\s*\x22([^\x22]+)\x22[^}]*}'] *)
Definition attachment_list_re : Pattern :=
  [Lit "attachment_list"; Star isspace; Lit "{"; Star notbrace;
   Lit "vm_uuid:"; Star isspace; Lit (String dquote EmptyString);
   Group notquote; Lit (String dquote EmptyString); Star notbrace; Lit "}"].

(** [r'index: (\d+)'] *)
Definition index_re : Pattern := [Lit "index: "; Group isdigit].

End Re.

(** ** Events, the control plane and the monad of the script *)

Inductive Level : Type := INFO | WARNING | ERROR.

(** A log record is kept as the template given to [str.format] (or the
    f-string with its fields replaced by [{}]) and the arguments filled in. *)
Inductive Arg : Type :=
| AStr (s : string)
| AInt (n : Z)
| AList (l : list string).

Inductive Event : Type :=
| Exec (full_command : string) (timeout : Z)
| Log (level : Level) (template : string) (args : list Arg).

(** What [subprocess.Popen] followed by [communicate(timeout=...)] does: the
    process ends with a return code, [TimeoutExpired] is raised, or another
    exception is. *)
Inductive ProcResult : Type :=
| Completed (returncode : Z) (stdout stderr : string)
| TimeoutExpired
| Raised (e : string).

(** The commands run so far, each with its timeout. *)
Definition Call : Type := string * Z.

Definition executed (tr : list Event) : list Call :=
  flat_map (fun e => match e with
                     | Exec c t => [(c, t)]
                     | Log _ _ _ => []
                     end) tr.

(** The control plane: its answer to a command may depend on every command
    run before. *)
Definition World : Type := list Call -> string -> Z -> ProcResult.

Definition M (A : Type) : Type := list Event -> A * list Event.

Definition ret {A : Type} (a : A) : M A := fun tr => (a, tr).

Definition bind {A B : Type} (m : M A) (k : A -> M B) : M B :=
  fun tr => let (a, tr') := m tr in k a tr'.

Declare Scope script_scope.
Delimit Scope script_scope with script.
Notation "x <- c1 ;; c2" := (bind c1 (fun x => c2))
  (at level 61, c1 at next level, right associativity) : script_scope.
Notation "c1 ;; c2" := (bind c1 (fun _ => c2))
  (at level 61, right associativity) : script_scope.
Local Open Scope script_scope.

(** [logger.info], [logger.warning], [logger.error] *)
Definition log (level : Level) (template : string) (args : list Arg) : M unit :=
  fun tr => (tt, tr ++ [Log level template args]).

(** The per-resource results of the specification.  The script keeps no such
    value: each names one of the five places where the loop of [main] ends
    an iteration and counts it. *)
Inductive RunOutcome : Type :=
| Succeeded
| SkippedConsumersAttached
| FailedDetachConsumers
| FailedDetachSubResources
| FailedDelete.

(** [args], as [argparse] returns it. *)
Record Args : Type := {
  dry_run : bool;
  verbose : bool;
  force : bool;
  prefix : string;
  timeout : Z
}.

Definition is_None {A : Type} (o : option A) : bool :=
  match o with None => true | Some _ => false end.

(** [result == s] for a result that may be [None]. *)
Definition eq_str (o : option string) (s : string) : bool :=
  match o with Some t => String.eqb t s | None => false end.

(** [bool(output)] for an output that may be [None]. *)
Definition truthy_opt (o : option string) : bool :=
  match o with Some t => PyStr.truthy t | None => false end.

Definition nonempty {A : Type} (l : list A) : bool :=
  match l with [] => false | _ => true end.

Definition len {A : Type} (l : list A) : Z := Z.of_nat (List.length l).

(** [s * n] *)
Fixpoint repeat_str (s : string) (n : nat) : string :=
  match n with
  | 0 => EmptyString
  | S k => s ++ repeat_str s k
  end.

Section Script.
Import PyStr.

Variable proc : World.

(** [subprocess.Popen(full_command, shell=True, ...)] and
    [process.communicate(timeout=timeout)]. *)
Definition popen (full_command : string) (timeout : Z) : M ProcResult :=
  fun tr => (proc (executed tr) full_command timeout,
             tr ++ [Exec full_command timeout]).

(** [run_acli_command(command, dry_run=False, timeout=30, confirm=False)];
    callers that leave an argument out pass its default. *)
Definition run_acli_command (command : string) (dry_run : bool) (timeout : Z)
    (confirm : bool) : M (option string) :=
  let full_command := ("acli " ++ command)%string in
  let full_command :=
    if confirm && negb dry_run then ("echo yes | " ++ full_command)%string
    else full_command in
  if dry_run then
    log INFO "[DRY RUN] Would execute: {}" [AStr full_command];;
    ret (Some "[DRY RUN] Command not executed")
  else
    log INFO "Executing: {}" [AStr full_command];;
    r <- popen full_command timeout;;
    match r with
    | TimeoutExpired =>
        log WARNING
          "Command timed out after {} seconds, but continuing execution"
          [AInt timeout];;
        ret (Some "TIMEOUT")
    | Completed returncode stdout stderr =>
        if negb (returncode =? 0)%Z then
          log ERROR "Command failed with return code: {}" [AInt returncode];;
          log ERROR "Error output: {}" [AStr stderr];;
          ret None
        else ret (Some stdout)
    | Raised e =>
        log ERROR "Command failed: {}" [AStr e];;
        ret None
    end.

(** The body of the parsing loop of [get_volume_groups]. *)
Definition get_volume_groups_step (vgs : list string) (line : string)
    : list string :=
  if negb (truthy (strip line)) || startswith line "-" || contains "Name" line
  then vgs
  else
    match split line with
    | p :: _ => vgs ++ [p]
    | [] => vgs
    end.

Definition get_volume_groups (dry_run : bool) : M (list string) :=
  output <- run_acli_command "vg.list" dry_run 30 false;;
  match output with
  | None =>
      log ERROR "Failed to retrieve volume groups" [];;
      ret []
  | Some output =>
      if dry_run then ret []
      else ret (fold_left get_volume_groups_step (splitlines output) [])
  end.

Definition get_vg_vms (vg_name : string) (dry_run : bool) : M (list string) :=
  output <- run_acli_command ("vg.get " ++ vg_name) dry_run 30 false;;
  match output with
  | None => ret []
  | Some output =>
      if dry_run then ret []
      else
        let direct : M (list string) :=
          let attachment_list_entries :=
            Re.findall Re.attachment_list_re output in
          if nonempty attachment_list_entries then
            log INFO "Found directly attached VMs: {}"
              [AList attachment_list_entries];;
            ret attachment_list_entries
          else ret [] in
        match Re.search Re.attachment_type_re output with
        | Some attachment_type =>
            if String.eqb attachment_type "kNone" then ret []
            else
              log INFO "Volume group {} has attachment type: {}"
                [AStr vg_name; AStr attachment_type];;
              direct
        | None => direct
        end
  end.

(** The loop of [detach_vms]; [success] is the flag it updates. *)
Fixpoint detach_vms_loop (vg_name : string) (vm_uuids : list string)
    (dry_run : bool) (success : bool) : M bool :=
  match vm_uuids with
  | [] => ret success
  | vm_uuid :: rest =>
      result <- run_acli_command
                  ("vg.detach_from_vm " ++ vg_name ++ " " ++ vm_uuid)
                  dry_run 20 true;;
      success <-
        (if is_None result && negb dry_run then
           log ERROR "Failed to detach VM {} from {}"
             [AStr vm_uuid; AStr vg_name];;
           ret false
         else if eq_str result "TIMEOUT" && negb dry_run then
           log WARNING
             "VM detachment command timed out for VM {} from {}. The operation may still be in progress."
             [AStr vm_uuid; AStr vg_name];;
           ret success
         else
           log INFO "{}Detached VM {} from {}"
             [AStr (if dry_run then "[DRY RUN] Would have " else "");
              AStr vm_uuid; AStr vg_name];;
           ret success);;
      detach_vms_loop vg_name rest dry_run success
  end.

Definition detach_vms (vg_name : string) (vm_uuids : list string)
    (dry_run : bool) : M bool :=
  if negb (nonempty vm_uuids) then
    log INFO "No VMs to detach from {}" [AStr vg_name];;
    ret true
  else detach_vms_loop vg_name vm_uuids dry_run true.

Definition get_vg_disks (vg_name : string) (dry_run : bool) : M (list string) :=
  output <- run_acli_command ("vg.get " ++ vg_name) dry_run 30 false;;
  match output with
  | None => ret []
  | Some output =>
      if dry_run then ret []
      else ret (Re.findall Re.index_re output)
  end.

(** The loop of [detach_disks]. *)
Fixpoint detach_disks_loop (vg_name : string) (disk_indexes : list string)
    (dry_run : bool) (success : bool) : M bool :=
  match disk_indexes with
  | [] => ret success
  | disk_index :: rest =>
      result <- run_acli_command
                  ("vg.disk_delete " ++ vg_name ++ " " ++ disk_index)
                  dry_run 20 true;;
      success <-
        (if is_None result && negb dry_run then
           log ERROR "Failed to detach disk index {} from {}"
             [AStr disk_index; AStr vg_name];;
           ret false
         else if eq_str result "TIMEOUT" && negb dry_run then
           log WARNING
             "Disk deletion command timed out for disk {} in {}. The operation may still be in progress."
             [AStr disk_index; AStr vg_name];;
           ret success
         else ret success);;
      detach_disks_loop vg_name rest dry_run success
  end.

Definition detach_disks (vg_name : string) (disk_indexes : list string)
    (dry_run : bool) : M bool :=
  if negb (nonempty disk_indexes) then
    log INFO "No disks to detach from {}" [AStr vg_name];;
    ret true
  else detach_disks_loop vg_name disk_indexes dry_run true.

Definition delete_vg (vg_name : string) (dry_run : bool) : M bool :=
  result <- run_acli_command ("vg.delete " ++ vg_name) dry_run 20 true;;
  let success := negb (is_None result) || eq_str result "TIMEOUT" || dry_run in
  (if success then
     if dry_run then
       log INFO "[DRY RUN] Would delete volume group: {}" [AStr vg_name]
     else log INFO "Deleted volume group: {}" [AStr vg_name]
   else log ERROR "Failed to delete volume group: {}" [AStr vg_name]);;
  ret success.

(** The body of the parsing loop in the dry-run branch of [main]. *)
Definition main_dry_run_step (vgs : list string) (line : string)
    : list string :=
  let parts := split line in
  if nonempty parts && negb (startswith line "Volume Group")
     && negb (startswith line "-")
  then match parts with
       | p :: _ => vgs ++ [p]
       | [] => vgs
       end
  else vgs.

Definition simulated_vgs : list string :=
  ["EXAMPLE_VG1"; "EXAMPLE_VG2"; "OTHER_VG"; "ANOTHER_VG"].

(** [main], from "Get list of all volume groups" to the end of its dry-run
    branch: the value of [vgs].  [run_acli_command] catches every exception
    itself, so the [except] branches of [main] cannot be entered. *)
Definition main_list_vgs (args : Args) : M (list string) :=
  log INFO "Retrieving list of volume groups..." [];;
  vgs <- get_volume_groups (dry_run args);;
  if dry_run args then
    output <- run_acli_command "vg.list" false 30 false;;
    if truthy_opt output then
      match output with
      | Some output =>
          ret (fold_left main_dry_run_step (splitlines output) [])
      | None => ret vgs
      end
    else
      log INFO "[DRY RUN] Using simulated VG list for demonstration" [];;
      ret simulated_vgs
  else ret vgs.

(** The loop body of [main], "Check for attached VMs": the value of
    [attached_vms]. *)
Definition main_attached_vms (args : Args) (vg_name : string)
    : M (list string) :=
  if dry_run args then
    log INFO "[DRY RUN] Would check for VMs attached to {}" [AStr vg_name];;
    output <- run_acli_command ("vg.get " ++ vg_name) false 30 false;;
    if truthy_opt output then
      match output with
      | Some output =>
          match Re.search Re.attachment_type_re output with
          | Some attachment_type =>
              if negb (String.eqb attachment_type "kNone") then
                let vm_uuids := Re.findall Re.attachment_list_re output in
                if nonempty vm_uuids then
                  log INFO "[DRY RUN] Found VMs attached to {}: {}"
                    [AStr vg_name; AStr (join ", " vm_uuids)];;
                  ret vm_uuids
                else ret []
              else ret []
          | None => ret []
          end
      | None => ret []
      end
    else ret []
  else get_vg_vms vg_name (dry_run args).

(** The loop body of [main], "Get disks attached to the VG": the value of
    [disk_indexes]. *)
Definition main_disk_indexes (args : Args) (vg_name : string)
    : M (list string) :=
  if dry_run args then
    log INFO "[DRY RUN] Would check for disks in {}" [AStr vg_name];;
    output <- run_acli_command ("vg.get " ++ vg_name) false 30 false;;
    if truthy_opt output then
      match output with
      | Some output =>
          let index_matches := Re.findall Re.index_re output in
          let disk_indexes :=
            if nonempty index_matches then index_matches else [] in
          log INFO "[DRY RUN] Found {} disks in {}"
            [AInt (len disk_indexes); AStr vg_name];;
          ret disk_indexes
      | None => ret ["0"]
      end
    else ret ["0"]
  else
    disk_indexes <- get_vg_disks vg_name (dry_run args);;
    log INFO "Found {} disks attached to {}"
      [AInt (len disk_indexes); AStr vg_name];;
    ret disk_indexes.

(** The loop body of [main] from "Get disks attached to the VG" on. *)
Definition main_teardown (args : Args) (vg_name : string) : M RunOutcome :=
  disk_indexes <- main_disk_indexes args vg_name;;
  detached <- detach_disks vg_name disk_indexes (dry_run args);;
  if detached then
    deleted <- delete_vg vg_name (dry_run args);;
    if deleted then ret Succeeded else ret FailedDelete
  else
    log ERROR "Skipping deletion of {} due to disk detachment failure"
      [AStr vg_name];;
    ret FailedDetachSubResources.

(** One iteration of the loop of [main].  The result names the counter
    statement the iteration reaches: [success_count += 1] for [Succeeded],
    one of the four [failure_count += 1] for the others. *)
Definition process_vg (args : Args) (vg_name : string) : M RunOutcome :=
  log INFO "Processing volume group: {}" [AStr vg_name];;
  attached_vms <- main_attached_vms args vg_name;;
  if nonempty attached_vms then
    if force args then
      log WARNING
        "VMs are attached to {}: {}. Continuing with detachment due to --force flag"
        [AStr vg_name; AStr (join ", " attached_vms)];;
      detached <- detach_vms vg_name attached_vms (dry_run args);;
      if negb detached then
        log ERROR "Failed to detach VMs from {}. Skipping VG deletion."
          [AStr vg_name];;
        ret FailedDetachConsumers
      else main_teardown args vg_name
    else
      log WARNING
        "VMs are attached to {}: {}. Skipping (use --force to override)"
        [AStr vg_name; AStr (join ", " attached_vms)];;
      ret SkippedConsumersAttached
  else main_teardown args vg_name.

(** The counter statement an iteration ends with. *)
Definition count (outcome : RunOutcome) (counts : Z * Z) : Z * Z :=
  let (success_count, failure_count) := counts in
  match outcome with
  | Succeeded => (success_count + 1, failure_count)%Z
  | _ => (success_count, failure_count + 1)%Z
  end.

(** [for vg_name in target_vgs: ...] *)
Fixpoint main_loop (args : Args) (target_vgs : list string) (counts : Z * Z)
    : M (Z * Z) :=
  match target_vgs with
  | [] => ret counts
  | vg_name :: rest =>
      outcome <- process_vg args vg_name;;
      main_loop args rest (count outcome counts)
  end.

(** The "Summary" block that ends [main]. *)
Definition main_summary (args : Args) (target_vgs : list string)
    (counts : Z * Z) : M unit :=
  log INFO (repeat_str "=" 50) [];;
  log INFO "Operation Summary:" [];;
  log INFO "Total VGs matching pattern: {}" [AInt (len target_vgs)];;
  log INFO "Successfully processed: {}" [AInt (fst counts)];;
  log INFO "Failed: {}" [AInt (snd counts)];;
  log INFO (repeat_str "=" 50) [];;
  if dry_run args then
    log INFO "This was a dry run. No actual changes were made." []
  else ret tt.

(** [target_vgs = [vg for vg in vgs if vg.startswith(args.prefix)]] *)
Definition target_vgs_of (args : Args) (vgs : list string) : list string :=
  filter (fun vg => startswith vg (prefix args)) vgs.

(** [main], after [argparse] has produced [args]: first the "Print run mode"
    block.  [--verbose] lowers the level of the logger to DEBUG; the script
    logs nothing below INFO, so the records are the same. *)
Definition main_banner (args : Args) : M unit :=
  (if dry_run args then
     log INFO "Running in DRY RUN mode - no changes will be made" []
   else log INFO "Running in LIVE mode - changes will be applied" []);;
  (if force args then
     log WARNING
       "FORCE mode enabled - will attempt to delete VGs even if VMs are attached"
       []
   else ret tt);;
  log INFO "Targeting VGs with prefix: {}" [AStr (prefix args)];;
  log INFO "Command timeout set to {} seconds" [AInt (timeout args)].

Definition main (args : Args) : M unit :=
  main_banner args;;
  vgs <- main_list_vgs args;;
  if negb (nonempty vgs) && negb (dry_run args) then
    log INFO "No volume groups found or unable to retrieve the list" []
  else
    log INFO "Found {} volume groups" [AInt (len vgs)];;
    let target_vgs := target_vgs_of args vgs in
    if negb (nonempty target_vgs) then
      log INFO "No volume groups found matching the pattern '{}'"
        [AStr (prefix args)]
    else
      log INFO "Found {} volume groups matching the pattern '{}'"
        [AInt (len target_vgs); AStr (prefix args)];;
      counts <- main_loop args target_vgs (0, 0)%Z;;
      main_summary args target_vgs counts.

End Script.

(** * The vocabulary of the properties *)

(** ** Invariants of a view of the trace

    A view keeps some events of the trace; [preserves view P m] says that
    when every kept item of the trace so far satisfies [P], the same holds
    after [m] has run. *)

Definition holds {X : Type} (view : Event -> list X) (P : X -> Prop)
    (tr : list Event) : Prop :=
  Forall P (flat_map view tr).

Definition preserves {X : Type} (view : Event -> list X) (P : X -> Prop)
    {A : Type} (m : M A) : Prop :=
  forall tr, holds view P tr -> holds view P (snd (m tr)).

(** What [run_acli_command] returns for each way the process can end. *)
Definition acli_result (r : ProcResult) : option string :=
  match r with
  | TimeoutExpired => Some "TIMEOUT"
  | Completed returncode stdout _ =>
      if (returncode =? 0)%Z then Some stdout else None
  | Raised _ => None
  end.

(** The shell command [run_acli_command] builds in a live run. *)
Definition shell_command (command : string) (confirm : bool) : string :=
  if confirm then ("echo yes | acli " ++ command)%string
  else ("acli " ++ command)%string.

(** The view of the commands run. *)
Definition calls (e : Event) : list Call :=
  match e with
  | Exec c t => [(c, t)]
  | Log _ _ _ => []
  end.

(** The view of the records with a given template: their arguments. *)
Definition records (template : string) (e : Event) : list (list Arg) :=
  match e with
  | Log _ t args => if String.eqb t template then [args] else []
  | Exec _ _ => []
  end.

(** The commands of the three actions that change the control plane. *)
Definition action_commands : list string :=
  ["vg.detach_from_vm "; "vg.disk_delete "; "vg.delete "].

(** A shell command is mutating when it runs one of them, with or without
    the piped confirmation. *)
Definition is_mutating (full_command : string) : bool :=
  existsb (fun a =>
             PyStr.startswith full_command ("acli " ++ a)
             || PyStr.startswith full_command ("echo yes | acli " ++ a))
    action_commands.

Definition read_only (c : Call) : Prop := is_mutating (fst c) = false.

(** The calls the script makes for a volume group. *)
Definition describe_call (vg_name : string) : Call :=
  (("acli vg.get " ++ vg_name)%string, 30%Z).

Definition detach_call (vg_name vm_uuid : string) : Call :=
  (("echo yes | acli vg.detach_from_vm " ++ vg_name ++ " " ++ vm_uuid)%string,
   20%Z).

Definition disk_delete_call (vg_name disk_index : string) : Call :=
  (("echo yes | acli vg.disk_delete " ++ vg_name ++ " " ++ disk_index)%string,
   20%Z).

Definition delete_call (vg_name : string) : Call :=
  (("echo yes | acli vg.delete " ++ vg_name)%string, 20%Z).

(** [failed proc h c]: run after the commands [h], the call [c] makes
    [run_acli_command] return [None]. *)
Definition failed (proc : World) (h : list Call) (c : Call) : bool :=
  is_None (acli_result (proc h (fst c) (snd c))).

(** No call of [cs] fails when they are run one after the other. *)
Fixpoint all_ok (proc : World) (h : list Call) (cs : list Call) : bool :=
  match cs with
  | [] => true
  | c :: rest => negb (failed proc h c) && all_ok proc (h ++ [c]) rest
  end.

(** The consumers the iteration on [vg_name] finds when it starts after the
    trace [tr]. *)
Definition attached_vms_at (proc : World) (args : Args) (vg_name : string)
    (tr : list Event) : list string :=
  fst (main_attached_vms proc args vg_name
         (tr ++ [Log INFO "Processing volume group: {}" [AStr vg_name]])).

Definition vms_of (args : Args) (output : option string) : list string :=
  if dry_run args then
    if truthy_opt output then
      match output with
      | Some output =>
          match Re.search Re.attachment_type_re output with
          | Some attachment_type =>
              if negb (String.eqb attachment_type "kNone")
              then Re.findall Re.attachment_list_re output
              else []
          | None => []
          end
      | None => []
      end
    else []
  else
    match output with
    | None => []
    | Some output =>
        match Re.search Re.attachment_type_re output with
        | Some attachment_type =>
            if String.eqb attachment_type "kNone" then []
            else Re.findall Re.attachment_list_re output
        | None => Re.findall Re.attachment_list_re output
        end
    end.

Definition disks_of (args : Args) (output : option string) : list string :=
  if dry_run args then
    if truthy_opt output then
      match output with
      | Some output => Re.findall Re.index_re output
      | None => ["0"%string]
      end
    else ["0"%string]
  else
    match output with
    | None => []
    | Some output => Re.findall Re.index_re output
    end.

(** What [run_acli_command] returns for the describe command after [h]. *)
Definition described (proc : World) (vg_name : string) (h : list Call)
    : option string :=
  acli_result (proc h (fst (describe_call vg_name)) (snd (describe_call vg_name))).

Definition teardown_of (proc : World) (args : Args) (vg_name : string)
    (h : list Call) : RunOutcome * list Call :=
  let disk_indexes := disks_of args (described proc vg_name h) in
  let h1 := h ++ [describe_call vg_name] in
  if dry_run args then (Succeeded, h1)
  else
    let cs := map (disk_delete_call vg_name) disk_indexes in
    if all_ok proc h1 cs then
      ((if failed proc (h1 ++ cs) (delete_call vg_name)
        then FailedDelete else Succeeded),
       h1 ++ cs ++ [delete_call vg_name])
    else (FailedDetachSubResources, h1 ++ cs).

Definition iteration_of (proc : World) (args : Args) (vg_name : string)
    (h : list Call) : RunOutcome * list Call :=
  let attached_vms := vms_of args (described proc vg_name h) in
  let h1 := h ++ [describe_call vg_name] in
  if nonempty attached_vms then
    if force args then
      if dry_run args then teardown_of proc args vg_name h1
      else
        let cs := map (detach_call vg_name) attached_vms in
        if all_ok proc h1 cs then teardown_of proc args vg_name (h1 ++ cs)
        else (FailedDetachConsumers, h1 ++ cs)
    else (SkippedConsumersAttached, h1)
  else teardown_of proc args vg_name h1.

(** The reading of the specification: the first failed detach ends the
    iteration, so the detach commands run are those of the consumers up to
    the failed one and nothing else. *)
Definition detach_failure_stops_detaching : Prop :=
  forall (proc : World) (args : Args) (vg_name : string) (tr : list Event)
         (pre : list string) (c : string) (post : list string),
    dry_run args = false ->
    force args = true ->
    attached_vms_at proc args vg_name tr = pre ++ c :: post ->
    all_ok proc (executed tr ++ [describe_call vg_name])
      (map (detach_call vg_name) pre) = true ->
    failed proc
      ((executed tr ++ [describe_call vg_name])
       ++ map (detach_call vg_name) pre)
      (detach_call vg_name c) = true ->
    fst (process_vg proc args vg_name tr) = FailedDetachConsumers /\
    executed (snd (process_vg proc args vg_name tr)) =
    (executed tr ++ [describe_call vg_name])
    ++ map (detach_call vg_name) (pre ++ [c]).

(** The shell commands run with the piped confirmation are the detach and
    delete actions. *)
Definition confirmed (full_command : string) : bool :=
  PyStr.startswith full_command "echo yes | ".


(** The reading of the specification: when the describe command fails, the
    iteration finds no consumer and no sub-resource. *)
Definition describe_failure_means_nothing_attached : Prop :=
  forall (proc : World) (args : Args) (vg_name : string) (tr : list Event),
    (forall h, described proc vg_name h = None) ->
    fst (main_attached_vms proc args vg_name tr) = [] /\
    fst (main_disk_indexes proc args vg_name tr) = [].

(** The volume groups [main] finds, and the ones it goes on with. *)
Definition main_vgs (proc : World) (args : Args) (tr : list Event)
    : list string :=
  fst (main_list_vgs proc args (snd (main_banner args tr))).

Definition main_targets (proc : World) (args : Args) (tr : list Event)
    : list string :=
  target_vgs_of args (main_vgs proc args tr).

(** The outcomes of the iterations of the loop of [main], in order. *)
Fixpoint outcomes (proc : World) (args : Args) (target_vgs : list string)
    (tr : list Event) : list RunOutcome :=
  match target_vgs with
  | [] => []
  | vg_name :: rest =>
      let (outcome, tr') := process_vg proc args vg_name tr in
      outcome :: outcomes proc args rest tr'
  end.

Definition is_succeeded (outcome : RunOutcome) : bool :=
  match outcome with Succeeded => true | _ => false end.

(** The trace of [main] when it enters its loop: the trace after the list
    has been read, and the two records that count what was found. *)
Definition main_loop_entry (proc : World) (args : Args) (tr : list Event)
    : list Event :=
  (snd (main_list_vgs proc args (snd (main_banner args tr)))
   ++ [Log INFO "Found {} volume groups" [AInt (len (main_vgs proc args tr))]])
  ++ [Log INFO "Found {} volume groups matching the pattern '{}'"
        [AInt (len (main_targets proc args tr)); AStr (prefix args)]].

(** The two counters after the loop, read off the outcomes of its
    iterations. *)
Definition tally (os : list RunOutcome) : Z * Z :=
  (len (filter is_succeeded os),
   len (filter (fun o => negb (is_succeeded o)) os)).

Definition summary_record : Event := Log INFO "Operation Summary:" [].

(** The reading of the specification: every run logs the summary. *)
Definition summary_always_emitted : Prop :=
  forall (proc : World) (args : Args),
    In summary_record (snd (main proc args [])).

(** The calls that act on the volume group [vg_name]. *)
Definition about (vg_name : string) (c : Call) : Prop :=
  c = describe_call vg_name
  \/ (exists vm_uuid, c = detach_call vg_name vm_uuid)
  \/ (exists disk_index, c = disk_delete_call vg_name disk_index)
  \/ c = delete_call vg_name.

Definition list_call : Call := ("acli vg.list"%string, 30%Z).

(** No character of the string is whitespace. *)
Fixpoint spaceless (s : string) : bool :=
  match s with
  | EmptyString => true
  | String c s' => negb (PyStr.isspace c) && spaceless s'
  end.

(** The record that opens the iteration on a volume group. *)
Definition processing_record (vg_name : string) : Event :=
  Log INFO "Processing volume group: {}" [AStr vg_name].

(** ** A control plane to run the script on *)

Module Lab.
Import PyStr.

Definition nl : string := String LF "".
Definition quoted (s : string) : string :=
  (String Re.dquote s ++ String Re.dquote "")%string.

(** The text of a describe command: the attachment type, one attachment
    record for each consumer and one disk record for each index. *)
Definition describe_text (mode : string) (vms disks : list string) : string :=
  ("volume_group_attachment_type: " ++ quoted mode ++ nl
   ++ String.concat ""
        (map (fun u => "attachment_list {" ++ nl ++ "  vm_uuid: " ++ quoted u
                       ++ nl ++ "}" ++ nl) vms)
   ++ String.concat ""
        (map (fun i => "disk_list {" ++ nl ++ "  index: " ++ i ++ nl ++ "}"
                       ++ nl) disks))%string.

(** A control plane given by a table from shell commands to their results;
    a command that is not in the table times out. *)
Fixpoint lookup (table : list (string * ProcResult)) (c : string)
    : ProcResult :=
  match table with
  | [] => TimeoutExpired
  | (k, r) :: rest => if String.eqb k c then r else lookup rest c
  end.

Definition table_world (table : list (string * ProcResult)) : World :=
  fun _ c _ => lookup table c.

(** Three volume groups, two of them with the prefix [TEST-].  [TEST-1] has
    three consumers and two disks, and the detach of its second consumer
    fails; [TEST-2] cannot be described. *)
Definition cluster : World :=
  table_world
    [("acli vg.list",
      Completed 0 ("Volume Group Name" ++ nl ++ "TEST-1" ++ nl ++ "OTHER_VG"
                   ++ nl ++ "TEST-2" ++ nl) "");
     ("acli vg.get TEST-1",
      Completed 0 (describe_text "kDirect" ["vm-1"; "vm-2"; "vm-3"] ["0"; "1"])
        "");
     ("acli vg.get TEST-2", Completed 1 "" "Unknown name: TEST-2");
     ("acli vg.get OTHER_VG", Completed 0 (describe_text "kNone" [] ["0"]) "");
     ("echo yes | acli vg.detach_from_vm TEST-1 vm-1", Completed 0 "" "");
     ("echo yes | acli vg.detach_from_vm TEST-1 vm-2",
      Completed 1 "" "detach failed");
     ("echo yes | acli vg.detach_from_vm TEST-1 vm-3", Completed 0 "" "")].

(** A control plane with no volume group at all. *)
Definition empty_cluster : World :=
  table_world [("acli vg.list", Completed 0 "" "")].

(** A control plane with a volume group that has [Name] in its name. *)
Definition named_cluster : World :=
  table_world
    [("acli vg.list",
      Completed 0 ("TEST-Name-1  0005" ++ nl ++ "TEST-2  0006" ++ nl) "")].

Definition live_args : Args :=
  {| dry_run := false; verbose := false; force := false;
     prefix := "TEST-"; timeout := 60 |}.

Definition force_args : Args :=
  {| dry_run := false; verbose := false; force := true;
     prefix := "TEST-"; timeout := 60 |}.

Definition dry_args : Args :=
  {| dry_run := true; verbose := false; force := true;
     prefix := "TEST-"; timeout := 60 |}.

(** A volume group without consumers and with three disks; the delete of
    the disk of index 1 fails. *)
Definition disk_cluster : World :=
  table_world
    [("acli vg.list", Completed 0 ("TEST-9  0009" ++ nl) "");
     ("acli vg.get TEST-9",
      Completed 0 (describe_text "kNone" [] ["0"; "1"; "2"]) "");
     ("echo yes | acli vg.disk_delete TEST-9 0", Completed 0 "" "");
     ("echo yes | acli vg.disk_delete TEST-9 1", Completed 1 "" "busy");
     ("echo yes | acli vg.disk_delete TEST-9 2", Completed 0 "" "")].

(** The same volume group on a control plane where every action ends
    well. *)
Definition healthy_cluster : World :=
  table_world
    [("acli vg.list", Completed 0 ("TEST-9  0009" ++ nl) "");
     ("acli vg.get TEST-9",
      Completed 0 (describe_text "kNone" [] ["0"; "1"; "2"]) "");
     ("echo yes | acli vg.disk_delete TEST-9 0", Completed 0 "" "");
     ("echo yes | acli vg.disk_delete TEST-9 1", Completed 0 "" "");
     ("echo yes | acli vg.disk_delete TEST-9 2", Completed 0 "" "");
     ("echo yes | acli vg.delete TEST-9", Completed 0 "" "")].

(** A volume group whose description has an attachment record and no
    attachment type. *)
Definition untyped_cluster : World :=
  table_world
    [("acli vg.get TEST-7",
      Completed 0 ("attachment_list {" ++ nl ++ "  vm_uuid: " ++ quoted "vm-7"
                   ++ nl ++ "}" ++ nl) "")].

(** A control plane that answers no command in time. *)
Definition silent_cluster : World := table_world [].

(** A control plane on which every command fails. *)
Definition broken_cluster : World := fun _ _ _ => Completed 1 "" "down".

End Lab.

(** ** Further vocabulary *)

(** Every character of the string is in the class. *)
Fixpoint all_chars (cls : ascii -> bool) (s : string) : bool :=
  match s with
  | EmptyString => true
  | String c s' => cls c && all_chars cls s'
  end.

(** The commands of an iteration that goes all the way: describe, detach
    the consumers, describe, delete the disks, delete the volume group. *)
Definition full_iteration (vg_name : string) (vm_uuids disk_indexes : list string)
    : list Call :=
  [describe_call vg_name] ++ map (detach_call vg_name) vm_uuids
  ++ [describe_call vg_name] ++ map (disk_delete_call vg_name) disk_indexes
  ++ [delete_call vg_name].

(** Events in which every command run comes right after the record that
    announces it. *)
Inductive announced : list Event -> Prop :=
| announced_nil : announced []
| announced_log l t a evs :
    announced evs -> announced (Log l t a :: evs)
| announced_exec c t evs :
    announced evs ->
    announced (Log INFO "Executing: {}" [AStr c] :: Exec c t :: evs).

(** [emits R m]: whatever the trace so far, [m] only adds events at its end,
    and the events it adds satisfy [R]. *)
Definition emits (R : list Event -> Prop) {A : Type} (m : M A) : Prop :=
  forall tr, exists evs, snd (m tr) = tr ++ evs /\ R evs.

(** The names of the iterations opened in a trace, in order. *)
Definition processed (tr : list Event) : list (list Arg) :=
  flat_map (records "Processing volume group: {}") tr.

(** Events that open no iteration. *)
Definition quiet (evs : list Event) : Prop := processed evs = [].

(** The volume groups [main] goes on with, as a function of what
    [run_acli_command] returned for the list command. *)
Definition vgs_of (args : Args) (output : option string) : list string :=
  if dry_run args then
    if truthy_opt output then
      match output with
      | Some output =>
          fold_left main_dry_run_step (PyStr.splitlines output) []
      | None => []
      end
    else simulated_vgs
  else
    match output with
    | None => []
    | Some output =>
        fold_left get_volume_groups_step (PyStr.splitlines output) []
    end.

(** * Properties *)

(** ** Strings *)

Section StringFacts.
Import PyStr.

Lemma append_assoc' (a b c : string) :
  ((a ++ b) ++ c)%string = (a ++ (b ++ c))%string.
Proof.
  induction a as [|x a IH]; simpl; [reflexivity|].
  now rewrite IH.
Qed.

Lemma append_empty_r (a : string) : (a ++ "")%string = a.
Proof.
  induction a as [|x a IH]; simpl; [reflexivity|].
  now rewrite IH.
Qed.

Lemma startswith_iff (s p : string) :
  startswith s p = true <-> exists r, s = (p ++ r)%string.
Proof.
  revert s. induction p as [|a p IH]; intros s; simpl.
  - split; [intros _; now exists s | reflexivity].
  - destruct s as [|b s].
    + split; [discriminate | intros [r H]; discriminate].
    + rewrite andb_true_iff, Ascii.eqb_eq, IH. split.
      * intros [-> [r ->]]. now exists r.
      * intros [r H]. injection H as -> ->. split; [reflexivity | now exists r].
Qed.

Lemma contains_iff (sub s : string) :
  contains sub s = true <-> exists a b, s = (a ++ sub ++ b)%string.
Proof.
  induction s as [|c s IH]; simpl.
  - rewrite orb_false_r, startswith_iff. split.
    + intros [r H]. now exists ""%string, r.
    + intros [a [b H]]. destruct a; simpl in H; [now exists b|discriminate].
  - rewrite orb_true_iff, IH, startswith_iff. split.
    + intros [[r H] | [a [b H]]].
      * now exists ""%string, r.
      * exists (String c a), b. simpl. now rewrite H.
    + intros [a [b H]]. destruct a as [|x a]; simpl in H.
      * left. now exists b.
      * right. injection H as _ H. now exists a, b.
Qed.

(** A string that contains [sub] still does inside a longer one. *)
Lemma contains_inside (sub a p b : string) :
  contains sub p = true -> contains sub (a ++ p ++ b) = true.
Proof.
  rewrite !contains_iff. intros [x [y ->]].
  exists (a ++ x)%string, (y ++ b)%string.
  now rewrite !append_assoc'.
Qed.

(** The first field [split] returns is a piece of the line. *)
Lemma split_aux_head (s cur p : string) (ps : list string) :
  split_aux cur s = p :: ps ->
  exists a b, (cur ++ s)%string = (a ++ p ++ b)%string.
Proof.
  revert cur. induction s as [|c s IH]; intros cur; simpl.
  - destruct (truthy cur); [|discriminate].
    intros H. injection H as <- _. exists ""%string, ""%string.
    simpl. reflexivity.
  - destruct (isspace c).
    + destruct (truthy cur) eqn:Hc.
      * intros H. injection H as <- _.
        exists ""%string, (String c s). reflexivity.
      * destruct cur; [|discriminate]. intros H.
        destruct (IH _ H) as [a [b Hab]]. simpl in Hab.
        exists (String c a), b. simpl. now rewrite Hab.
    + intros H. destruct (IH _ H) as [a [b Hab]].
      exists a, b. rewrite <- Hab, append_assoc'. reflexivity.
Qed.

Lemma split_head (line p : string) (ps : list string) :
  split line = p :: ps -> exists a b, line = (a ++ p ++ b)%string.
Proof.
  intros H. apply split_aux_head in H. exact H.
Qed.

Lemma strip_empty : strip "" = ""%string.
Proof. reflexivity. Qed.

End StringFacts.

(** ** Traces *)

Lemma executed_app (tr1 tr2 : list Event) :
  executed (tr1 ++ tr2) = executed tr1 ++ executed tr2.
Proof. unfold executed. apply flat_map_app. Qed.

Lemma executed_log (tr : list Event) l t a :
  executed (tr ++ [Log l t a]) = executed tr.
Proof. rewrite executed_app. simpl. apply app_nil_r. Qed.

Lemma executed_exec (tr : list Event) c t :
  executed (tr ++ [Exec c t]) = executed tr ++ [(c, t)].
Proof. rewrite executed_app. reflexivity. Qed.

Lemma run_acli_command_dry proc command timeout confirm tr :
  run_acli_command proc command true timeout confirm tr =
  (Some "[DRY RUN] Command not executed",
   tr ++ [Log INFO "[DRY RUN] Would execute: {}"
            [AStr ("acli " ++ command)]]).
Proof. unfold run_acli_command. rewrite andb_false_r. reflexivity. Qed.

Lemma run_acli_command_live_fst proc command timeout confirm tr :
  fst (run_acli_command proc command false timeout confirm tr) =
  acli_result (proc (executed tr) (shell_command command confirm) timeout).
Proof.
  unfold run_acli_command, shell_command, bind, log, popen, ret.
  rewrite andb_true_r, executed_log. simpl.
  destruct confirm;
    (destruct (proc _ _ _) as [rc out err| |e]; simpl;
     [destruct (rc =? 0)%Z; reflexivity | reflexivity | reflexivity]).
Qed.

Lemma run_acli_command_live_executed proc command timeout confirm tr :
  executed (snd (run_acli_command proc command false timeout confirm tr)) =
  executed tr ++ [(shell_command command confirm, timeout)].
Proof.
  unfold run_acli_command, shell_command, bind, log, popen, ret.
  rewrite andb_true_r, executed_log. simpl.
  destruct confirm;
    (destruct (proc _ _ _) as [rc out err| |e]; simpl;
     [destruct (rc =? 0)%Z; simpl|..];
     rewrite ?executed_log, executed_exec, executed_log; reflexivity).
Qed.

(** ** Invariants of a view of the trace *)

Section Invariants.
Context {X : Type} (view : Event -> list X) (P : X -> Prop).

Lemma holds_snoc tr e :
  holds view P tr -> Forall P (view e) -> holds view P (tr ++ [e]).
Proof.
  unfold holds. intros H He. rewrite flat_map_app. apply Forall_app.
  split; [exact H|]. simpl. now rewrite app_nil_r.
Qed.

Lemma preserves_ret {A} (a : A) : preserves view P (ret a).
Proof. intros tr H. exact H. Qed.

Lemma preserves_log l t a :
  Forall P (view (Log l t a)) -> preserves view P (log l t a).
Proof. intros He tr H. simpl. now apply holds_snoc. Qed.

Lemma preserves_popen proc c t :
  Forall P (view (Exec c t)) -> preserves view P (popen proc c t).
Proof. intros He tr H. simpl. now apply holds_snoc. Qed.

Lemma preserves_bind {A B} (m : M A) (k : A -> M B) :
  preserves view P m -> (forall a, preserves view P (k a)) ->
  preserves view P (bind m k).
Proof.
  intros Hm Hk tr H. unfold bind. specialize (Hm tr H).
  destruct (m tr) as [a tr']. now apply Hk.
Qed.

End Invariants.

(** The side condition of a step: the items kept of one event satisfy the
    invariant. *)
Ltac leaf :=
  simpl; repeat (apply Forall_cons || apply Forall_nil); simpl; auto.

(** One step of a proof of [preserves], along the structure of the
    computation. *)
Ltac preserves_step :=
  match goal with
  | H : true = false |- _ => discriminate H
  | H : false = true |- _ => discriminate H
  | |- preserves _ _ (ret _) => apply preserves_ret
  | |- preserves _ _ (log _ _ _) => apply preserves_log; leaf
  | |- preserves _ _ (popen _ _ _) => apply preserves_popen; leaf
  | |- preserves _ _ (bind _ _) => apply preserves_bind; [|intros ?]
  | |- preserves _ _ (if true then _ else _) => cbv iota
  | |- preserves _ _ (if false then _ else _) => cbv iota
  | |- preserves _ _ (if ?b then _ else _) => destruct b eqn:?
  | |- preserves _ _ (match ?x with _ => _ end) => destruct x eqn:?
  | |- preserves _ _ _ => solve [auto]
  end.

Ltac preserves_auto := repeat (cbv zeta; preserves_step).

Lemma executed_calls tr : executed tr = flat_map calls tr.
Proof. reflexivity. Qed.

(** ** Dry runs *)

#[local] Hint Unfold read_only : core.

Section DryRun.
Variable proc : World.

Lemma detach_vms_loop_dry vg_name vm_uuids success tr :
  fst (detach_vms_loop proc vg_name vm_uuids true success tr) = success /\
  executed (snd (detach_vms_loop proc vg_name vm_uuids true success tr)) =
  executed tr.
Proof.
  revert success tr. induction vm_uuids as [|u rest IH]; intros success tr.
  - split; reflexivity.
  - cbn [detach_vms_loop]. unfold bind. rewrite run_acli_command_dry.
    cbn [is_None eq_str negb andb]. rewrite ?andb_false_r.
    unfold log, ret. cbv beta iota.
    match goal with
    | |- context [detach_vms_loop _ _ _ _ _ ?t] =>
        destruct (IH success t) as [H1 H2]
    end.
    split; [exact H1|]. rewrite H2, !executed_log. reflexivity.
Qed.

Lemma detach_vms_dry vg_name vm_uuids tr :
  fst (detach_vms proc vg_name vm_uuids true tr) = true /\
  executed (snd (detach_vms proc vg_name vm_uuids true tr)) = executed tr.
Proof.
  unfold detach_vms. destruct vm_uuids as [|u rest].
  - simpl. split; [reflexivity | apply executed_log].
  - apply detach_vms_loop_dry.
Qed.

Lemma detach_disks_loop_dry vg_name disk_indexes success tr :
  fst (detach_disks_loop proc vg_name disk_indexes true success tr) = success /\
  executed (snd (detach_disks_loop proc vg_name disk_indexes true success tr)) =
  executed tr.
Proof.
  revert success tr. induction disk_indexes as [|d rest IH]; intros success tr.
  - split; reflexivity.
  - cbn [detach_disks_loop]. unfold bind. rewrite run_acli_command_dry.
    cbn [is_None eq_str negb andb]. rewrite ?andb_false_r.
    unfold log, ret. cbv beta iota.
    match goal with
    | |- context [detach_disks_loop _ _ _ _ _ ?t] =>
        destruct (IH success t) as [H1 H2]
    end.
    split; [exact H1|]. rewrite H2, !executed_log. reflexivity.
Qed.

Lemma detach_disks_dry vg_name disk_indexes tr :
  fst (detach_disks proc vg_name disk_indexes true tr) = true /\
  executed (snd (detach_disks proc vg_name disk_indexes true tr)) = executed tr.
Proof.
  unfold detach_disks. destruct disk_indexes as [|d rest].
  - simpl. split; [reflexivity | apply executed_log].
  - apply detach_disks_loop_dry.
Qed.

Lemma delete_vg_dry vg_name tr :
  fst (delete_vg proc vg_name true tr) = true /\
  executed (snd (delete_vg proc vg_name true tr)) = executed tr.
Proof.
  unfold delete_vg, bind. rewrite run_acli_command_dry. simpl.
  split; [reflexivity|]. now rewrite !executed_log.
Qed.

(** A computation that leaves the commands run as they are preserves every
    invariant on them. *)
Lemma preserves_quiet {A} (P : Call -> Prop) (m : M A) :
  (forall tr, executed (snd (m tr)) = executed tr) -> preserves calls P m.
Proof.
  intros H tr Htr. unfold holds in *. rewrite <- executed_calls, H.
  exact Htr.
Qed.

Lemma process_vg_dry_read_only args vg_name :
  dry_run args = true ->
  preserves calls read_only (process_vg proc args vg_name).
Proof.
  intros Hdry.
  assert (Hvms : forall l, preserves calls read_only
                             (detach_vms proc vg_name l true))
    by (intros l; apply preserves_quiet; intros tr; apply detach_vms_dry).
  assert (Hdisks : forall l, preserves calls read_only
                               (detach_disks proc vg_name l true))
    by (intros l; apply preserves_quiet; intros tr; apply detach_disks_dry).
  assert (Hdel : preserves calls read_only (delete_vg proc vg_name true))
    by (apply preserves_quiet; intros tr; apply delete_vg_dry).
  unfold process_vg, main_teardown, main_attached_vms, main_disk_indexes,
    run_acli_command.
  rewrite Hdry. preserves_auto.
Qed.

Lemma main_loop_dry_read_only args target_vgs counts :
  dry_run args = true ->
  preserves calls read_only (main_loop proc args target_vgs counts).
Proof.
  intros Hdry. revert counts.
  induction target_vgs as [|vg rest IH]; intros counts; simpl.
  - apply preserves_ret.
  - apply preserves_bind; [now apply process_vg_dry_read_only|].
    intros o. apply IH.
Qed.

Lemma main_dry_read_only args :
  dry_run args = true -> preserves calls read_only (main proc args).
Proof.
  intros Hdry.
  assert (Hloop := fun l c => main_loop_dry_read_only args l c Hdry).
  unfold main, main_banner, main_list_vgs, main_summary, get_volume_groups,
    run_acli_command.
  rewrite Hdry. preserves_auto.
Qed.

End DryRun.

(** C1. In a dry run the three mutating actions (detaching the consumers,
    detaching the sub-resources, deleting the volume group) run no command,
    they only log and report success; and no command that [main] runs is a
    detach or delete command. *)
Theorem C1_dry_run_mutations_are_noops :
  forall (proc : World) (args : Args),
    dry_run args = true ->
    (forall vg_name vm_uuids tr,
        fst (detach_vms proc vg_name vm_uuids (dry_run args) tr) = true /\
        executed (snd (detach_vms proc vg_name vm_uuids (dry_run args) tr)) =
        executed tr) /\
    (forall vg_name disk_indexes tr,
        fst (detach_disks proc vg_name disk_indexes (dry_run args) tr) = true /\
        executed (snd (detach_disks proc vg_name disk_indexes (dry_run args) tr)) =
        executed tr) /\
    (forall vg_name tr,
        fst (delete_vg proc vg_name (dry_run args) tr) = true /\
        executed (snd (delete_vg proc vg_name (dry_run args) tr)) =
        executed tr) /\
    Forall (fun c => is_mutating (fst c) = false)
      (executed (snd (main proc args []))).
Proof.
  intros proc args Hdry. rewrite Hdry.
  split; [intros; apply detach_vms_dry|].
  split; [intros; apply detach_disks_dry|].
  split; [intros; apply delete_vg_dry|].
  apply (main_dry_read_only proc args Hdry []). constructor.
Qed.

(** ** Live runs: the commands of one iteration *)

(** *** One iteration as a function of the control plane

    The consumers and the disk indexes an iteration finds are functions of
    what [run_acli_command] returned for the describe command; the outcome
    of the iteration and the commands it runs are functions of the control
    plane and of the commands run before.  They are shown below to be what
    [process_vg] computes. *)

Ltac run_live E :=
  match goal with
  | |- context [run_acli_command ?p ?c false ?t ?k ?tr] =>
      let H1 := fresh "Hres" in
      let H2 := fresh "Hexe" in
      pose proof (run_acli_command_live_fst p c t k tr) as H1;
      pose proof (run_acli_command_live_executed p c t k tr) as H2;
      destruct (run_acli_command p c false t k tr) as [? ?] eqn:E;
      cbn [fst snd shell_command] in H1, H2
  end.

Ltac split_matches :=
  repeat (unfold bind, log, ret; cbv beta iota; cbn [nonempty negb];
          match goal with
          | |- context [nonempty ?l] => destruct l eqn:?
          | |- context [match ?x with _ => _ end] => destruct x eqn:?
          end;
          try match goal with
              | H : (_, _) = (_, _) |- _ => injection H as <- <-
              end).

Section Live.
Variable proc : World.

Lemma detach_vms_loop_live vg_name vm_uuids success tr :
  exists tr',
    detach_vms_loop proc vg_name vm_uuids false success tr =
    (success && all_ok proc (executed tr) (map (detach_call vg_name) vm_uuids),
     tr') /\
    executed tr' = executed tr ++ map (detach_call vg_name) vm_uuids.
Proof.
  revert success tr. induction vm_uuids as [|u rest IH]; intros success tr.
  - exists tr. cbn. rewrite andb_true_r, app_nil_r. split; reflexivity.
  - cbn [detach_vms_loop map all_ok]. unfold bind.
    run_live E. cbn [negb] in *. rewrite !andb_true_r.
    assert (Hf : is_None o = failed proc (executed tr) (detach_call vg_name u))
      by (rewrite Hres; reflexivity).
    assert (He : forall l0 t0 a0,
               executed (l ++ [Log l0 t0 a0]) =
               executed tr ++ [detach_call vg_name u])
      by (intros; rewrite executed_log; exact Hexe).
    rewrite <- Hf.
    destruct o as [out|]; cbn [is_None eq_str negb].
    + rewrite andb_true_l.
      destruct (String.eqb out "TIMEOUT"); unfold log, ret; cbv beta iota;
        match goal with
        | |- context [detach_vms_loop _ _ _ _ _ ?t] =>
            destruct (IH success t) as [tr' [H1 H2]]
        end;
        exists tr'; rewrite H1, H2, !He, <- app_assoc; split; reflexivity.
    + unfold log, ret. cbv beta iota.
      match goal with
      | |- context [detach_vms_loop _ _ _ _ _ ?t] =>
          destruct (IH false t) as [tr' [H1 H2]]
      end.
      exists tr'. rewrite H1, H2, !He, <- app_assoc.
      rewrite andb_false_l, andb_false_r. split; reflexivity.
Qed.

Lemma detach_disks_loop_live vg_name disk_indexes success tr :
  exists tr',
    detach_disks_loop proc vg_name disk_indexes false success tr =
    (success
     && all_ok proc (executed tr) (map (disk_delete_call vg_name) disk_indexes),
     tr') /\
    executed tr' = executed tr ++ map (disk_delete_call vg_name) disk_indexes.
Proof.
  revert success tr. induction disk_indexes as [|d rest IH]; intros success tr.
  - exists tr. cbn. rewrite andb_true_r, app_nil_r. split; reflexivity.
  - cbn [detach_disks_loop map all_ok]. unfold bind.
    run_live E. cbn [negb] in *. rewrite !andb_true_r.
    assert (Hf : is_None o
                 = failed proc (executed tr) (disk_delete_call vg_name d))
      by (rewrite Hres; reflexivity).
    assert (He : forall l0 t0 a0,
               executed (l ++ [Log l0 t0 a0]) =
               executed tr ++ [disk_delete_call vg_name d])
      by (intros; rewrite executed_log; exact Hexe).
    rewrite <- Hf.
    destruct o as [out|]; cbn [is_None eq_str negb].
    + rewrite andb_true_l.
      destruct (String.eqb out "TIMEOUT"); unfold log, ret; cbv beta iota;
        match goal with
        | |- context [detach_disks_loop _ _ _ _ _ ?t] =>
            destruct (IH success t) as [tr' [H1 H2]]
        end;
        exists tr'; rewrite H1, H2, ?He, ?Hexe, <- app_assoc;
        split; reflexivity.
    + unfold log, ret. cbv beta iota.
      match goal with
      | |- context [detach_disks_loop _ _ _ _ _ ?t] =>
          destruct (IH false t) as [tr' [H1 H2]]
      end.
      exists tr'. rewrite H1, H2, !He, <- app_assoc.
      rewrite andb_false_l, andb_false_r. split; reflexivity.
Qed.

Lemma detach_vms_live vg_name vm_uuids tr :
  exists tr',
    detach_vms proc vg_name vm_uuids false tr =
    (all_ok proc (executed tr) (map (detach_call vg_name) vm_uuids), tr') /\
    executed tr' = executed tr ++ map (detach_call vg_name) vm_uuids.
Proof.
  unfold detach_vms. destruct vm_uuids as [|u rest].
  - eexists. cbn. split; [reflexivity|].
    now rewrite executed_log, app_nil_r.
  - cbn [nonempty negb]. apply detach_vms_loop_live.
Qed.

Lemma detach_disks_live vg_name disk_indexes tr :
  exists tr',
    detach_disks proc vg_name disk_indexes false tr =
    (all_ok proc (executed tr) (map (disk_delete_call vg_name) disk_indexes),
     tr') /\
    executed tr' = executed tr ++ map (disk_delete_call vg_name) disk_indexes.
Proof.
  unfold detach_disks. destruct disk_indexes as [|d rest].
  - eexists. cbn. split; [reflexivity|].
    now rewrite executed_log, app_nil_r.
  - cbn [nonempty negb]. apply detach_disks_loop_live.
Qed.

Lemma delete_vg_live vg_name tr :
  exists tr',
    delete_vg proc vg_name false tr =
    (negb (failed proc (executed tr) (delete_call vg_name)), tr') /\
    executed tr' = executed tr ++ [delete_call vg_name].
Proof.
  unfold delete_vg, bind. run_live E.
  assert (Hf : is_None o = failed proc (executed tr) (delete_call vg_name))
    by (rewrite Hres; reflexivity).
  rewrite <- Hf.
  destruct o as [out|]; cbn [is_None eq_str negb orb]; unfold log, ret;
    eexists; (split; [reflexivity | rewrite executed_log; exact Hexe]).
Qed.

Lemma main_attached_vms_spec args vg_name tr :
  exists tr',
    main_attached_vms proc args vg_name tr =
    (vms_of args (described proc vg_name (executed tr)), tr') /\
    executed tr' = executed tr ++ [describe_call vg_name].
Proof.
  unfold main_attached_vms, vms_of, get_vg_vms, described.
  destruct (dry_run args); unfold bind.
  - unfold log at 1. run_live E. rewrite executed_log in Hres, Hexe.
    change (acli_result _) with
      (acli_result (proc (executed tr) ("acli " ++ "vg.get " ++ vg_name)%string
                      30%Z)).
    rewrite <- Hres.
    split_matches; unfold bind, log, ret; cbv beta iota; eexists;
      (split; [reflexivity | rewrite ?executed_log; exact Hexe]).
  - run_live E.
    change (acli_result _) with
      (acli_result (proc (executed tr) ("acli " ++ "vg.get " ++ vg_name)%string
                      30%Z)).
    rewrite <- Hres.
    split_matches; unfold bind, log, ret; cbv beta iota; eexists;
      (split; [reflexivity | rewrite ?executed_log; exact Hexe]).
Qed.

Lemma main_disk_indexes_spec args vg_name tr :
  exists tr',
    main_disk_indexes proc args vg_name tr =
    (disks_of args (described proc vg_name (executed tr)), tr') /\
    executed tr' = executed tr ++ [describe_call vg_name].
Proof.
  unfold main_disk_indexes, disks_of, get_vg_disks, described.
  destruct (dry_run args); unfold bind.
  - unfold log at 1. run_live E. rewrite executed_log in Hres, Hexe.
    change (acli_result _) with
      (acli_result (proc (executed tr) ("acli " ++ "vg.get " ++ vg_name)%string
                      30%Z)).
    rewrite <- Hres.
    split_matches; unfold bind, log, ret; cbv beta iota; eexists;
      (split; [reflexivity | rewrite ?executed_log; exact Hexe]).
  - run_live E.
    change (acli_result _) with
      (acli_result (proc (executed tr) ("acli " ++ "vg.get " ++ vg_name)%string
                      30%Z)).
    rewrite <- Hres.
    split_matches; unfold bind, log, ret; cbv beta iota; eexists;
      (split; [reflexivity | rewrite ?executed_log; exact Hexe]).
Qed.

Lemma main_teardown_spec args vg_name tr :
  exists tr',
    main_teardown proc args vg_name tr =
    (fst (teardown_of proc args vg_name (executed tr)), tr') /\
    executed tr' = snd (teardown_of proc args vg_name (executed tr)).
Proof.
  unfold main_teardown, teardown_of, bind.
  destruct (main_disk_indexes_spec args vg_name tr) as [tr1 [E1 H1]].
  rewrite E1. clear E1.
  set (disk_indexes := disks_of args _) in *.
  destruct (dry_run args) eqn:Hdry.
  - destruct (detach_disks_dry proc vg_name disk_indexes tr1) as [Ha Hb].
    destruct (detach_disks proc vg_name disk_indexes true tr1) as [b tr2].
    cbn [fst snd] in Ha, Hb. subst b.
    destruct (delete_vg_dry proc vg_name tr2) as [Hc Hd].
    destruct (delete_vg proc vg_name true tr2) as [b tr3].
    cbn [fst snd] in Hc, Hd. subst b. exists tr3.
    split; [reflexivity|]. cbn [snd]. congruence.
  - destruct (detach_disks_live vg_name disk_indexes tr1) as [tr2 [E2 H2]].
    rewrite E2, H1. clear E2.
    destruct (all_ok proc _ _).
    + destruct (delete_vg_live vg_name tr2) as [tr3 [E3 H3]].
      rewrite E3, H2, H1. clear E3.
      destruct (failed proc _ _); cbn [negb fst snd]; exists tr3;
        (split; [reflexivity|]); rewrite H3, H2, H1, <- !app_assoc;
        reflexivity.
    + unfold log, ret. eexists. split; [reflexivity|].
      cbn [snd]. rewrite executed_log, H2, H1. reflexivity.
Qed.

(** [process_vg] computes [iteration_of]: its outcome, and the commands it
    adds to the ones run before. *)
Lemma process_vg_spec args vg_name tr :
  exists tr',
    process_vg proc args vg_name tr =
    (fst (iteration_of proc args vg_name (executed tr)), tr') /\
    executed tr' = snd (iteration_of proc args vg_name (executed tr)).
Proof.
  unfold process_vg, iteration_of, bind. unfold log at 1.
  destruct (main_attached_vms_spec args vg_name
              (tr ++ [Log INFO "Processing volume group: {}" [AStr vg_name]]))
    as [tr1 [E1 H1]].
  rewrite executed_log in E1, H1. rewrite E1. clear E1.
  set (attached_vms := vms_of args _) in *.
  destruct (nonempty attached_vms).
  - destruct (force args).
    + unfold log at 1.
      destruct (dry_run args) eqn:Hdry.
      * match goal with
        | |- context [detach_vms proc vg_name attached_vms true ?t] =>
            destruct (detach_vms_dry proc vg_name attached_vms t) as [Ha Hb];
            destruct (detach_vms proc vg_name attached_vms true t) as [b tr2]
        end.
        cbn [fst snd] in Ha, Hb. subst b. cbn [negb].
        rewrite executed_log in Hb.
        destruct (main_teardown_spec args vg_name tr2) as [tr3 [E3 H3]].
        rewrite Hb, H1 in E3, H3. exists tr3. split; assumption.
      * match goal with
        | |- context [detach_vms proc vg_name attached_vms false ?t] =>
            destruct (detach_vms_live vg_name attached_vms t)
              as [tr2 [E2 H2]]
        end.
        rewrite executed_log, H1 in E2, H2. rewrite E2. clear E2.
        destruct (all_ok proc _ _); cbn [negb].
        -- destruct (main_teardown_spec args vg_name tr2) as [tr3 [E3 H3]].
           rewrite H2 in E3, H3. exists tr3. split; assumption.
        -- unfold log, ret. eexists. split; [reflexivity|].
           cbn [snd]. rewrite executed_log. exact H2.
    + unfold log, ret. eexists. split; [reflexivity|].
      cbn [snd]. rewrite executed_log. exact H1.
  - destruct (main_teardown_spec args vg_name tr1) as [tr3 [E3 H3]].
    rewrite H1 in E3, H3. exists tr3. split; assumption.
Qed.

End Live.

(** C1 on the lab: a forced dry run. *)
Lemma C1_dry_run_witness :
  dry_run Lab.dry_args = true /\
  Forall (fun c => is_mutating (fst c) = false)
    (executed (snd (main Lab.cluster Lab.dry_args []))).
Proof.
  split; [reflexivity|].
  apply (C1_dry_run_mutations_are_noops Lab.cluster Lab.dry_args).
  reflexivity.
Defined.

(** ** The consumer gate and the detach of consumers *)

Lemma attached_vms_at_spec proc args vg_name tr :
  attached_vms_at proc args vg_name tr =
  vms_of args (described proc vg_name (executed tr)).
Proof.
  unfold attached_vms_at.
  destruct (main_attached_vms_spec proc args vg_name
              (tr ++ [Log INFO "Processing volume group: {}" [AStr vg_name]]))
    as [tr' [E _]].
  rewrite E, executed_log. reflexivity.
Qed.

Lemma all_ok_app proc h cs1 cs2 :
  all_ok proc h (cs1 ++ cs2) = all_ok proc h cs1 && all_ok proc (h ++ cs1) cs2.
Proof.
  revert h. induction cs1 as [|c cs1 IH]; intros h; cbn [all_ok app].
  - now rewrite app_nil_r.
  - rewrite IH, <- app_assoc, andb_assoc. reflexivity.
Qed.

Lemma all_ok_failed proc h pre c post :
  failed proc (h ++ pre) c = true -> all_ok proc h (pre ++ c :: post) = false.
Proof.
  intros H. rewrite all_ok_app. cbn [all_ok]. rewrite H.
  cbn [negb andb]. apply andb_false_r.
Qed.

Lemma nonempty_middle {A} (pre : list A) c post :
  nonempty (pre ++ c :: post) = true.
Proof. destruct pre; reflexivity. Qed.

Lemma process_vg_fst proc args vg_name tr :
  fst (process_vg proc args vg_name tr) =
  fst (iteration_of proc args vg_name (executed tr)).
Proof.
  destruct (process_vg_spec proc args vg_name tr) as [tr' [E _]].
  now rewrite E.
Qed.

Lemma process_vg_executed proc args vg_name tr :
  executed (snd (process_vg proc args vg_name tr)) =
  snd (iteration_of proc args vg_name (executed tr)).
Proof.
  destruct (process_vg_spec proc args vg_name tr) as [tr' [E H]].
  now rewrite E.
Qed.

(** C2, as stated, fails: on the lab the detach of [vm-2] fails and the
    detach of [vm-3] is run all the same. *)
Lemma C2_detach_continues_after_failure : ~ detach_failure_stops_detaching.
Proof.
  intros H.
  destruct (H Lab.cluster Lab.force_args "TEST-1"%string [] ["vm-1"%string]
              "vm-2"%string ["vm-3"%string]
              eq_refl eq_refl eq_refl eq_refl eq_refl) as [_ Hcalls].
  vm_compute in Hcalls. discriminate Hcalls.
Qed.

(** C2, amended.  Under [--force] in a live run, when the detach of a
    consumer fails the iteration ends as [FailedDetachConsumers]; the detach
    commands of all the consumers, those after the failed one too, have been
    run in the order of the list, and no command to detach a sub-resource or
    to delete the volume group is run. *)
Theorem C2_failed_detach_ends_iteration :
  forall (proc : World) (args : Args) (vg_name : string) (tr : list Event)
         (pre : list string) (c : string) (post : list string),
    dry_run args = false ->
    force args = true ->
    attached_vms_at proc args vg_name tr = pre ++ c :: post ->
    failed proc
      ((executed tr ++ [describe_call vg_name])
       ++ map (detach_call vg_name) pre)
      (detach_call vg_name c) = true ->
    fst (process_vg proc args vg_name tr) = FailedDetachConsumers /\
    executed (snd (process_vg proc args vg_name tr)) =
    (executed tr ++ [describe_call vg_name])
    ++ map (detach_call vg_name) (pre ++ c :: post).
Proof.
  intros proc args vg_name tr pre c post Hlive Hforce Hvms Hfail.
  rewrite attached_vms_at_spec in Hvms.
  rewrite process_vg_fst, process_vg_executed. unfold iteration_of.
  rewrite Hvms, nonempty_middle, Hforce, Hlive, map_app. cbn [map].
  rewrite (all_ok_failed _ _ _ _ _ Hfail). split; reflexivity.
Qed.

Lemma C2_failed_detach_witness :
  fst (process_vg Lab.cluster Lab.force_args "TEST-1" []) =
  FailedDetachConsumers /\
  executed (snd (process_vg Lab.cluster Lab.force_args "TEST-1" [])) =
  [describe_call "TEST-1"; detach_call "TEST-1" "vm-1";
   detach_call "TEST-1" "vm-2"; detach_call "TEST-1" "vm-3"].
Proof.
  apply (C2_failed_detach_ends_iteration Lab.cluster Lab.force_args
           "TEST-1"%string [] ["vm-1"%string] "vm-2"%string ["vm-3"%string]);
    reflexivity.
Defined.

(** C3. Without [--force], a volume group whose consumer list is not empty
    ends its iteration at the consumer gate: the iteration logs the warning
    and stops, it is counted as a failure, and the only command it has run is
    the describe command, which is not a mutating one. *)
Theorem C3_consumers_without_force_are_skipped :
  forall (proc : World) (args : Args) (vg_name : string) (tr : list Event),
    force args = false ->
    attached_vms_at proc args vg_name tr <> [] ->
    process_vg proc args vg_name tr =
    (SkippedConsumersAttached,
     snd (main_attached_vms proc args vg_name
            (tr ++ [Log INFO "Processing volume group: {}" [AStr vg_name]]))
     ++ [Log WARNING
           "VMs are attached to {}: {}. Skipping (use --force to override)"
           [AStr vg_name;
            AStr (PyStr.join ", " (attached_vms_at proc args vg_name tr))]]) /\
    executed (snd (process_vg proc args vg_name tr)) =
    executed tr ++ [describe_call vg_name] /\
    is_mutating (fst (describe_call vg_name)) = false /\
    (forall counts,
        count SkippedConsumersAttached counts =
        (fst counts, (snd counts + 1)%Z)).
Proof.
  intros proc args vg_name tr Hforce Hvms.
  assert (Hne : nonempty (attached_vms_at proc args vg_name tr) = true)
    by (destruct (attached_vms_at proc args vg_name tr);
        [contradiction | reflexivity]).
  split; [|split; [|split]].
  - unfold process_vg, bind. unfold log at 1. cbv beta iota.
    unfold attached_vms_at in *.
    destruct (main_attached_vms proc args vg_name _) as [vms tr1].
    cbn [fst snd] in *. rewrite Hne, Hforce. reflexivity.
  - rewrite process_vg_executed. unfold iteration_of.
    rewrite <- attached_vms_at_spec, Hne, Hforce. reflexivity.
  - reflexivity.
  - intros [s f]. reflexivity.
Qed.

Lemma C3_skipped_witness :
  fst (process_vg Lab.cluster Lab.live_args "TEST-1" []) =
  SkippedConsumersAttached /\
  executed (snd (process_vg Lab.cluster Lab.live_args "TEST-1" [])) =
  [describe_call "TEST-1"].
Proof.
  destruct (C3_consumers_without_force_are_skipped
              Lab.cluster Lab.live_args "TEST-1"%string [] eq_refl)
    as [H1 [H2 _]].
  - vm_compute. discriminate.
  - split; [rewrite H1; reflexivity | exact H2].
Defined.

(** ** Timeouts of the actions *)

Section Timeouts.
Variables (output : string) (proc : World).






End Timeouts.






(** ** A describe command that fails *)

(** C6, as stated, fails in a dry run: [TEST-2] cannot be described and the
    dry run goes on with the disk index 0. *)
Lemma C6_dry_run_assumes_one_disk : ~ describe_failure_means_nothing_attached.
Proof.
  intros H.
  destruct (H Lab.cluster Lab.dry_args "TEST-2"%string [] (fun h => eq_refl))
    as [_ Hdisks].
  vm_compute in Hdisks. discriminate Hdisks.
Qed.

(** C6, amended.  When the describe command of a volume group fails, the
    iteration finds no consumer, so the consumer gate lets it through.  In a
    live run it finds no sub-resource either: after the two describe
    commands it runs the delete command and nothing else, and it ends as
    [Succeeded] or, when the delete fails, as [FailedDelete].  In a dry run
    it goes on with the single disk index 0, runs no command beyond the two
    describe commands, and ends as [Succeeded]. *)
Theorem C6_describe_failure_fails_open :
  forall (proc : World) (args : Args) (vg_name : string) (tr : list Event),
    (forall h, described proc vg_name h = None) ->
    attached_vms_at proc args vg_name tr = [] /\
    (dry_run args = false ->
     fst (main_disk_indexes proc args vg_name tr) = [] /\
     executed (snd (process_vg proc args vg_name tr)) =
     executed tr
     ++ [describe_call vg_name; describe_call vg_name; delete_call vg_name] /\
     fst (process_vg proc args vg_name tr) =
     if failed proc
          (executed tr ++ [describe_call vg_name; describe_call vg_name])
          (delete_call vg_name)
     then FailedDelete else Succeeded) /\
    (dry_run args = true ->
     fst (main_disk_indexes proc args vg_name tr) = ["0"%string] /\
     executed (snd (process_vg proc args vg_name tr)) =
     executed tr ++ [describe_call vg_name; describe_call vg_name] /\
     fst (process_vg proc args vg_name tr) = Succeeded).
Proof.
  intros proc args vg_name tr Hfail.
  assert (Hvms : vms_of args None = [])
    by (unfold vms_of; destruct (dry_run args); reflexivity).
  split; [|split].
  - rewrite attached_vms_at_spec, Hfail. exact Hvms.
  - intros Hlive.
    destruct (main_disk_indexes_spec proc args vg_name tr) as [tr1 [-> _]].
    rewrite process_vg_fst, process_vg_executed.
    unfold iteration_of, teardown_of. rewrite !Hfail, Hvms.
    unfold disks_of. rewrite Hlive. cbn [fst snd nonempty map all_ok app].
    rewrite app_nil_r, <- !app_assoc. cbn [app]. repeat split.
  - intros Hdry.
    destruct (main_disk_indexes_spec proc args vg_name tr) as [tr1 [-> _]].
    rewrite process_vg_fst, process_vg_executed.
    unfold iteration_of, teardown_of. rewrite !Hfail, Hvms.
    unfold disks_of. rewrite Hdry. cbn [fst snd nonempty truthy_opt].
    rewrite <- !app_assoc. cbn [app]. repeat split.
Qed.

Lemma C6_describe_failure_witness :
  (forall h, described Lab.cluster "TEST-2" h = None) /\
  executed (snd (process_vg Lab.cluster Lab.live_args "TEST-2" [])) =
  [describe_call "TEST-2"; describe_call "TEST-2"; delete_call "TEST-2"] /\
  fst (main_disk_indexes Lab.cluster Lab.dry_args "TEST-2" []) = ["0"%string].
Proof.
  assert (H : forall h, described Lab.cluster "TEST-2" h = None)
    by (intros h; reflexivity).
  destruct (C6_describe_failure_fails_open Lab.cluster Lab.live_args
              "TEST-2"%string [] H) as [_ [Hlive _]].
  destruct (C6_describe_failure_fails_open Lab.cluster Lab.dry_args
              "TEST-2"%string [] H) as [_ [_ Hdry]].
  split; [exact H|]. split.
  - apply Hlive. reflexivity.
  - apply Hdry. reflexivity.
Defined.

(** ** The whole run *)

Section Run.
Variable proc : World.

Lemma nonempty_false {A} (l : list A) : nonempty l = false <-> l = [].
Proof. destruct l; split; intros H; (reflexivity || discriminate). Qed.

(** The two ways [main] returns early, and the way it gets to its end. *)
Lemma main_cases args tr :
  let tr1 := snd (main_list_vgs proc args (snd (main_banner args tr))) in
  let vgs := main_vgs proc args tr in
  let targets := main_targets proc args tr in
  (targets = [] /\
   ((vgs = [] /\ dry_run args = false /\
     main proc args tr =
     (tt, tr1 ++ [Log INFO
                    "No volume groups found or unable to retrieve the list"
                    []]))
    \/
    main proc args tr =
    (tt, (tr1 ++ [Log INFO "Found {} volume groups" [AInt (len vgs)]])
         ++ [Log INFO "No volume groups found matching the pattern '{}'"
               [AStr (prefix args)]])))
  \/
  (targets <> [] /\
   main proc args tr =
   let (counts, tr4) :=
     main_loop proc args targets (0, 0)%Z
       ((tr1 ++ [Log INFO "Found {} volume groups" [AInt (len vgs)]])
        ++ [Log INFO "Found {} volume groups matching the pattern '{}'"
              [AInt (len targets); AStr (prefix args)]]) in
   main_summary args targets counts tr4).
Proof.
  unfold main_targets, main_vgs, main, bind.
  destruct (main_banner args tr) as [[] tr0]. cbn [snd].
  destruct (main_list_vgs proc args tr0) as [vgs tr1]. cbn [fst snd].
  destruct (nonempty vgs) eqn:Hvgs; cbn [negb andb].
  - unfold log at 1. cbv beta iota.
    destruct (nonempty (target_vgs_of args vgs)) eqn:Ht; cbn [negb].
    + right. split; [intros H; now rewrite H in Ht|].
      unfold log at 1. reflexivity.
    + left. apply nonempty_false in Ht. split; [exact Ht|].
      right. reflexivity.
  - apply nonempty_false in Hvgs. subst vgs. left.
    split; [reflexivity|].
    destruct (dry_run args); cbn [negb].
    + right. reflexivity.
    + left. repeat split.
Qed.

Lemma count_sum outcome counts :
  (fst (count outcome counts) + snd (count outcome counts)
   = fst counts + snd counts + 1)%Z.
Proof. destruct counts as [s f], outcome; cbn; lia. Qed.

Lemma main_loop_outcomes args target_vgs counts tr :
  let os := outcomes proc args target_vgs tr in
  let r := fst (main_loop proc args target_vgs counts tr) in
  List.length os = List.length target_vgs /\
  fst r = (fst counts + len (filter is_succeeded os))%Z /\
  snd r = (snd counts + len (filter (fun o => negb (is_succeeded o)) os))%Z /\
  (fst r + snd r = fst counts + snd counts + len target_vgs)%Z.
Proof.
  revert counts tr. induction target_vgs as [|vg rest IH]; intros counts tr.
  - cbn. unfold len. cbn. repeat split; lia.
  - cbn [main_loop outcomes]. unfold bind.
    destruct (process_vg proc args vg tr) as [o tr'].
    destruct (IH (count o counts) tr') as [H1 [H2 [H3 H4]]].
    cbv zeta in *. cbn [List.length]. rewrite H2, H3, H1.
    pose proof (count_sum o counts) as Hc.
    unfold len in *. cbn [List.length filter].
    destruct counts as [s f].
    destruct o; cbn [is_succeeded negb count fst snd List.length] in *;
      repeat split; lia.
Qed.

End Run.

Lemma main_summary_records args target_vgs counts tr :
  In (Log INFO "Total VGs matching pattern: {}" [AInt (len target_vgs)])
    (snd (main_summary args target_vgs counts tr)) /\
  In (Log INFO "Successfully processed: {}" [AInt (fst counts)])
    (snd (main_summary args target_vgs counts tr)) /\
  In (Log INFO "Failed: {}" [AInt (snd counts)])
    (snd (main_summary args target_vgs counts tr)).
Proof.
  unfold main_summary, bind, log, ret. cbv beta iota.
  destruct (dry_run args); cbn [snd]; rewrite !in_app_iff; cbn [In];
    repeat split; tauto.
Qed.

(** C7. Each iteration of the loop ends with one outcome and increments one
    counter by one: the success counter for [Succeeded], the failure counter
    for the four others.  The loop has one outcome for each candidate, the
    counters count the two kinds, and their sum is the number of candidates.
    When there is a candidate, [main] is its loop followed by the summary:
    the counters of the summary are those of the loop run on the candidates
    from the trace at which [main] enters it, they count the outcomes of
    the iterations on the candidates, one for each, and the summary logs
    them with the number of candidates, which is their sum. *)
Theorem C7_counters_sum_to_candidates :
  forall (proc : World) (args : Args),
    (forall outcome counts,
        count outcome counts =
        if is_succeeded outcome then ((fst counts + 1)%Z, snd counts)
        else (fst counts, (snd counts + 1)%Z)) /\
    (forall target_vgs tr,
        let os := outcomes proc args target_vgs tr in
        let r := fst (main_loop proc args target_vgs (0, 0)%Z tr) in
        List.length os = List.length target_vgs /\
        fst r = len (filter is_succeeded os) /\
        snd r = len (filter (fun o => negb (is_succeeded o)) os) /\
        (fst r + snd r = len target_vgs)%Z) /\
    (forall tr,
        main_targets proc args tr <> [] ->
        let target_vgs := main_targets proc args tr in
        let entry := main_loop_entry proc args tr in
        let os := outcomes proc args target_vgs entry in
        main proc args tr =
        main_summary args target_vgs
          (fst (main_loop proc args target_vgs (0, 0)%Z entry))
          (snd (main_loop proc args target_vgs (0, 0)%Z entry)) /\
        fst (main_loop proc args target_vgs (0, 0)%Z entry) = tally os /\
        List.length os = List.length target_vgs /\
        (fst (tally os) + snd (tally os) = len target_vgs)%Z /\
        In (Log INFO "Total VGs matching pattern: {}" [AInt (len target_vgs)])
          (snd (main proc args tr)) /\
        In (Log INFO "Successfully processed: {}" [AInt (fst (tally os))])
          (snd (main proc args tr)) /\
        In (Log INFO "Failed: {}" [AInt (snd (tally os))])
          (snd (main proc args tr))).
Proof.
  intros proc args. split; [|split].
  - intros outcome [s f]. destruct outcome; reflexivity.
  - intros target_vgs tr.
    destruct (main_loop_outcomes proc args target_vgs (0, 0)%Z tr)
      as [H1 [H2 [H3 H4]]].
    cbv zeta. cbn [fst snd] in *. repeat split; (assumption || lia).
  - intros tr Ht. cbv zeta.
    destruct (main_cases proc args tr) as [[H _] | [_ H]]; [contradiction|].
    change (main proc args tr =
            let (counts, tr4) :=
              main_loop proc args (main_targets proc args tr) (0, 0)%Z
                (main_loop_entry proc args tr) in
            main_summary args (main_targets proc args tr) counts tr4) in H.
    destruct (main_loop_outcomes proc args (main_targets proc args tr)
                (0, 0)%Z (main_loop_entry proc args tr))
      as [H1 [H2 [H3 H4]]].
    cbv zeta in H1, H2, H3, H4.
    destruct (main_loop proc args (main_targets proc args tr) (0, 0)%Z
                (main_loop_entry proc args tr)) as [[s f] tr4].
    cbn [fst snd] in *. rewrite Z.add_0_l in H2, H3.
    assert (Ht' : (s, f) =
                  tally (outcomes proc args (main_targets proc args tr)
                           (main_loop_entry proc args tr)))
      by (unfold tally; now rewrite H2, H3).
    destruct (main_summary_records args (main_targets proc args tr) (s, f) tr4)
      as [R1 [R2 R3]].
    rewrite <- H in R1, R2, R3. rewrite <- Ht'. cbn [fst snd] in *.
    repeat split; first [assumption | lia].
Qed.

Lemma C7_counters_witness :
  main_targets Lab.cluster Lab.force_args [] <> [] /\
  outcomes Lab.cluster Lab.force_args
    (main_targets Lab.cluster Lab.force_args [])
    (main_loop_entry Lab.cluster Lab.force_args []) =
  [FailedDetachConsumers; Succeeded] /\
  In (Log INFO "Successfully processed: {}" [AInt 1])
    (snd (main Lab.cluster Lab.force_args [])) /\
  In (Log INFO "Failed: {}" [AInt 1])
    (snd (main Lab.cluster Lab.force_args [])).
Proof.
  assert (H : main_targets Lab.cluster Lab.force_args [] <> [])
    by (vm_compute; discriminate).
  split; [exact H|]. split; [reflexivity|].
  destruct (C7_counters_sum_to_candidates Lab.cluster Lab.force_args)
    as [_ [_ H3]].
  destruct (H3 [] H) as [_ [_ [_ [_ [_ [R2 R3]]]]]].
  split; [exact R2 | exact R3].
Defined.

(** ** The summary *)

(** C8, as stated, fails: on a control plane without volume groups a live
    run returns before the summary. *)
Lemma C8_no_summary_without_volume_groups : ~ summary_always_emitted.
Proof.
  intros H. specialize (H Lab.empty_cluster Lab.live_args).
  vm_compute in H.
  repeat (destruct H as [H|H]; [discriminate H|]).
  exact H.
Qed.

Lemma records_absent template tr l a :
  holds (records template) (fun _ => False) tr ->
  ~ In (Log l template a) tr.
Proof.
  unfold holds. rewrite Forall_forall. intros H Hin.
  apply (H a). apply in_flat_map. exists (Log l template a).
  split; [exact Hin|]. cbn. rewrite String.eqb_refl. now left.
Qed.

Lemma main_list_vgs_no_summary proc args tr :
  holds (records "Operation Summary:") (fun _ => False) tr ->
  holds (records "Operation Summary:") (fun _ => False)
    (snd (main_list_vgs proc args (snd (main_banner args tr)))).
Proof.
  intros H.
  assert (Hb : preserves (records "Operation Summary:") (fun _ => False)
                 (main_banner args))
    by (unfold main_banner; preserves_auto).
  assert (Hl : preserves (records "Operation Summary:") (fun _ => False)
                 (main_list_vgs proc args))
    by (unfold main_list_vgs, get_volume_groups, run_acli_command;
        preserves_auto).
  apply Hl, Hb, H.
Qed.

Lemma main_summary_emits args target_vgs counts tr :
  In summary_record (snd (main_summary args target_vgs counts tr)).
Proof.
  unfold main_summary, bind, log, ret. cbv beta iota.
  destruct (dry_run args); cbn [snd]; rewrite !in_app_iff; cbn; tauto.
Qed.

(** C8, amended.  The summary is logged exactly when at least one volume
    group matches the prefix, and then it is what the run ends with.  When no
    volume group is found or none matches, the run ends with the record that
    says so, and logs no summary. *)
Theorem C8_summary_iff_candidates :
  forall (proc : World) (args : Args),
    (In summary_record (snd (main proc args []))
     <-> main_targets proc args [] <> []) /\
    (main_targets proc args [] <> [] ->
     exists counts tr',
       main proc args [] =
       main_summary args (main_targets proc args []) counts tr') /\
    (main_targets proc args [] = [] ->
     exists tr' template a,
       snd (main proc args []) = tr' ++ [Log INFO template a] /\
       (template = "No volume groups found or unable to retrieve the list"%string
        \/ template = "No volume groups found matching the pattern '{}'"%string)).
Proof.
  intros proc args.
  pose proof (main_list_vgs_no_summary proc args [] (Forall_nil _)) as Hno.
  assert (Hstep : forall tr e,
             holds (records "Operation Summary:") (fun _ => False) tr ->
             Forall (fun _ : list Arg => False)
               (records "Operation Summary:" e) ->
             holds (records "Operation Summary:") (fun _ => False) (tr ++ [e]))
    by (intros; now apply holds_snoc).
  destruct (main_cases proc args []) as [[Ht Hcase] | [Ht Hcase]].
  - split; [|split].
    + split; [|intros H; contradiction].
      intros Hin. exfalso. revert Hin. apply records_absent.
      destruct Hcase as [[_ [_ ->]] | ->]; cbn [snd];
        repeat (apply Hstep; [|cbn; constructor]); exact Hno.
    + intros H. contradiction.
    + intros _.
      destruct Hcase as [[_ [_ ->]] | ->]; cbn [snd];
        do 3 eexists; (split; [reflexivity|]); [left | right]; reflexivity.
  - destruct (main_loop proc args _ _ _) as [counts tr4].
    split; [|split].
    + split; [intros _; exact Ht|]. intros _. rewrite Hcase.
      apply main_summary_emits.
    + intros _. exists counts, tr4. exact Hcase.
    + intros H. contradiction.
Qed.

Lemma C8_summary_witness :
  main_targets Lab.cluster Lab.live_args [] <> [] /\
  main_targets Lab.empty_cluster Lab.live_args [] = [] /\
  In summary_record (snd (main Lab.cluster Lab.live_args [])) /\
  exists tr' template a,
    snd (main Lab.empty_cluster Lab.live_args []) =
    tr' ++ [Log INFO template a].
Proof.
  assert (H1 : main_targets Lab.cluster Lab.live_args [] <> [])
    by (vm_compute; discriminate).
  assert (H2 : main_targets Lab.empty_cluster Lab.live_args [] = [])
    by reflexivity.
  split; [exact H1|]. split; [exact H2|]. split.
  - apply (C8_summary_iff_candidates Lab.cluster Lab.live_args). exact H1.
  - destruct (C8_summary_iff_candidates Lab.empty_cluster Lab.live_args)
      as [_ [_ H]].
    destruct (H H2) as [tr' [template [a [E _]]]].
    exists tr', template, a. exact E.
Defined.

(** ** The commands of a run *)

Section Commands.
Variable proc : World.

Lemma about_detach_calls vg_name vm_uuids :
  Forall (about vg_name) (map (detach_call vg_name) vm_uuids).
Proof.
  apply Forall_forall. intros c Hc. apply in_map_iff in Hc.
  destruct Hc as [u [<- _]]. right. left. now exists u.
Qed.

Lemma about_disk_delete_calls vg_name disk_indexes :
  Forall (about vg_name) (map (disk_delete_call vg_name) disk_indexes).
Proof.
  apply Forall_forall. intros c Hc. apply in_map_iff in Hc.
  destruct Hc as [i [<- _]]. right. right. left. now exists i.
Qed.

Lemma about_describe vg_name : Forall (about vg_name) [describe_call vg_name].
Proof. constructor; [now left | constructor]. Qed.

Lemma about_delete vg_name : Forall (about vg_name) [delete_call vg_name].
Proof. constructor; [now (right; right; right) | constructor]. Qed.

Lemma teardown_of_calls args vg_name h :
  exists new,
    snd (teardown_of proc args vg_name h) = h ++ new /\
    Forall (about vg_name) new.
Proof.
  unfold teardown_of.
  pose proof (about_describe vg_name) as Hd.
  pose proof (about_delete vg_name) as Hx.
  destruct (dry_run args); [|destruct (all_ok proc _ _)]; cbn [snd].
  - exists [describe_call vg_name]. split; [reflexivity | exact Hd].
  - rewrite <- !app_assoc. eexists. split; [reflexivity|].
    apply Forall_app. split; [exact Hd|].
    apply Forall_app. split; [apply about_disk_delete_calls | exact Hx].
  - rewrite <- !app_assoc. eexists. split; [reflexivity|].
    apply Forall_app. split; [exact Hd | apply about_disk_delete_calls].
Qed.

Lemma iteration_of_calls args vg_name h :
  exists new,
    snd (iteration_of proc args vg_name h) = h ++ new /\
    Forall (about vg_name) new.
Proof.
  unfold iteration_of.
  pose proof (about_describe vg_name) as Hd.
  assert (Hnext : forall cs,
             Forall (about vg_name) cs ->
             exists new,
               snd (teardown_of proc args vg_name (h ++ cs)) = h ++ new /\
               Forall (about vg_name) new).
  { intros cs Hcs.
    destruct (teardown_of_calls args vg_name (h ++ cs)) as [new [-> Hnew]].
    exists (cs ++ new). rewrite <- app_assoc. split; [reflexivity|].
    apply Forall_app. now split. }
  destruct (nonempty _).
  - destruct (force args).
    + destruct (dry_run args).
      * apply Hnext, Hd.
      * destruct (all_ok proc _ _).
        -- rewrite <- app_assoc. apply Hnext. apply Forall_app.
           split; [exact Hd | apply about_detach_calls].
        -- cbn [snd]. rewrite <- app_assoc. eexists.
           split; [reflexivity|]. apply Forall_app.
           split; [exact Hd | apply about_detach_calls].
    + cbn [snd]. exists [describe_call vg_name]. split; [reflexivity | exact Hd].
  - apply Hnext, Hd.
Qed.

Lemma main_loop_calls args target_vgs counts tr :
  exists new,
    executed (snd (main_loop proc args target_vgs counts tr)) =
    executed tr ++ new /\
    Forall (fun c => exists n, In n target_vgs /\ about n c) new.
Proof.
  revert counts tr. induction target_vgs as [|vg rest IH]; intros counts tr.
  - exists []. cbn. now rewrite app_nil_r.
  - cbn [main_loop]. unfold bind.
    destruct (process_vg_spec proc args vg tr) as [tr' [-> Hexe]].
    destruct (iteration_of_calls args vg (executed tr)) as [new1 [E1 H1]].
    destruct (IH (count (fst (iteration_of proc args vg (executed tr))) counts)
                tr') as [new2 [E2 H2]].
    exists (new1 ++ new2). rewrite E2, Hexe, E1, app_assoc.
    split; [reflexivity|]. apply Forall_app. split.
    + eapply Forall_impl; [|exact H1]. intros c Hc. exists vg.
      split; [now left | exact Hc].
    + eapply Forall_impl; [|exact H2]. intros c [n [Hn Hc]]. exists n.
      split; [now right | exact Hc].
Qed.

Lemma main_banner_executed args tr :
  executed (snd (main_banner args tr)) = executed tr.
Proof.
  unfold main_banner, bind, log, ret.
  destruct (dry_run args), (force args); cbn [snd];
    rewrite ?executed_log; reflexivity.
Qed.

Lemma main_summary_executed args target_vgs counts tr :
  executed (snd (main_summary args target_vgs counts tr)) = executed tr.
Proof.
  unfold main_summary, bind, log, ret. cbv beta iota.
  destruct (dry_run args); cbn [snd]; rewrite ?executed_log; reflexivity.
Qed.

Lemma main_list_vgs_executed args tr :
  executed (snd (main_list_vgs proc args tr)) = executed tr ++ [list_call].
Proof.
  unfold main_list_vgs, get_volume_groups, bind. unfold log at 1.
  destruct (dry_run args).
  - rewrite run_acli_command_dry. unfold ret. cbv beta iota. run_live E.
    rewrite !executed_log in Hexe.
    split_matches; cbn [snd]; rewrite ?executed_log; exact Hexe.
  - run_live E. rewrite !executed_log in Hexe.
    destruct o as [out|]; unfold bind, log, ret; cbn [snd];
      rewrite ?executed_log; exact Hexe.
Qed.

(** The commands of a run: the list command, then commands that act on
    volume groups the run goes on with. *)
Lemma main_executed args tr :
  exists new,
    executed (snd (main proc args tr)) = executed tr ++ list_call :: new /\
    Forall (fun c => exists n, In n (main_targets proc args tr) /\ about n c)
      new.
Proof.
  pose proof (main_list_vgs_executed args (snd (main_banner args tr))) as Hl.
  rewrite main_banner_executed in Hl.
  destruct (main_cases proc args tr) as [[_ Hcase] | [_ Hcase]].
  - exists []. split; [|constructor].
    destruct Hcase as [[_ [_ ->]] | ->]; cbn [snd];
      rewrite ?executed_log; exact Hl.
  - match type of Hcase with
    | _ = (let (_, _) := main_loop proc args ?ts ?c ?t in _) =>
        destruct (main_loop_calls args ts c t) as [new [E H]];
        destruct (main_loop proc args ts c t) as [counts tr4]
    end.
    exists new. rewrite Hcase, main_summary_executed.
    cbn [snd] in E. rewrite E, !executed_log, Hl, <- app_assoc.
    split; [reflexivity | exact H].
Qed.

End Commands.

(** C9 on the code.  Every run starts with the list command run with a
    timeout of 30 seconds, whatever [--timeout] is, and every other command
    runs with a timeout of 30 seconds (describe) or 20 seconds (detach and
    delete actions): [args.timeout] is only logged. *)
Theorem C9_timeout_flag_is_not_used :
  forall (proc : World) (args : Args),
    exists rest,
      executed (snd (main proc args [])) =
      ("acli vg.list"%string, 30%Z) :: rest /\
      Forall (fun c => if is_mutating (fst c) then snd c = 20%Z
                       else snd c = 30%Z) rest.
Proof.
  intros proc args.
  destruct (main_executed proc args []) as [new [E H]].
  exists new. split; [exact E|].
  eapply Forall_impl; [|exact H].
  intros c [n [_ [-> | [[u ->] | [[i ->] | ->]]]]]; reflexivity.
Qed.

(** The run of the lab with [--timeout 60]: the list command runs with 30. *)
Example timeout_60_list_call :
  timeout Lab.live_args = 60%Z /\
  hd_error (executed (snd (main Lab.cluster Lab.live_args []))) =
  Some ("acli vg.list"%string, 30%Z).
Proof. split; reflexivity. Qed.

(** ** The names of the volume groups *)

Section Names.
Import PyStr.

Lemma spaceless_app a b :
  spaceless (a ++ b) = spaceless a && spaceless b.
Proof.
  induction a as [|c a IH]; cbn [append spaceless]; [reflexivity|].
  now rewrite IH, andb_assoc.
Qed.

Lemma split_aux_spaceless s cur :
  spaceless cur = true ->
  Forall (fun t => spaceless t = true) (split_aux cur s).
Proof.
  revert cur. induction s as [|c s IH]; intros cur Hcur; cbn [split_aux].
  - destruct (truthy cur); repeat constructor. exact Hcur.
  - destruct (isspace c) eqn:Hc.
    + destruct (truthy cur); [constructor; [exact Hcur|]|]; now apply IH.
    + apply IH. rewrite spaceless_app, Hcur. cbn. now rewrite Hc.
Qed.

Lemma split_spaceless line :
  Forall (fun t => spaceless t = true) (split line).
Proof. now apply split_aux_spaceless. Qed.

(** Two names without whitespace that are followed by a space and some text
    in the same string are the same name. *)
Lemma append_space_inj n m u u' :
  spaceless n = true -> spaceless m = true ->
  (n ++ String " " u)%string = (m ++ String " " u')%string -> n = m.
Proof.
  revert m. induction n as [|a n IH]; intros [|b m] Hn Hm H;
    cbn [append spaceless] in *.
  - reflexivity.
  - injection H as <- _. now rewrite andb_false_l in Hm.
  - injection H as -> _. now rewrite andb_false_l in Hn.
  - injection H as -> H. apply andb_true_iff in Hn, Hm.
    f_equal. now apply (IH m).
Qed.

(** A call acts on at most one name without whitespace. *)
Lemma about_inj n m c :
  spaceless n = true -> spaceless m = true ->
  about n c -> about m c -> n = m.
Proof.
  intros Hn Hm Hnc Hmc.
  unfold about, describe_call, detach_call, disk_delete_call, delete_call in *.
  destruct Hnc as [-> | [[u ->] | [[i ->] | ->]]];
    destruct Hmc as [H | [[u' H] | [[i' H] | H]]];
    cbn [append] in H; try discriminate H;
    injection H as H;
    first [exact H | eapply append_space_inj; eassumption].
Qed.

Lemma about_list_call n : ~ about n list_call.
Proof.
  unfold about, list_call, describe_call, detach_call, disk_delete_call,
    delete_call.
  intros [H | [[u H] | [[i H] | H]]]; cbn [append] in H; discriminate H.
Qed.

End Names.

(** *** What the enumeration returns *)

Section Enumeration.
Import PyStr.
Variable proc : World.
Variable Q : string -> Prop.

Lemma fold_left_step_names (step : list string -> string -> list string) :
  (forall vgs line, Forall Q vgs -> Forall Q (step vgs line)) ->
  forall lines vgs, Forall Q vgs -> Forall Q (fold_left step lines vgs).
Proof.
  intros Hstep lines. induction lines as [|line lines IH]; intros vgs H.
  - exact H.
  - cbn [fold_left]. apply IH, Hstep, H.
Qed.

Lemma get_volume_groups_names dry tr :
  (forall vgs line, Forall Q vgs -> Forall Q (get_volume_groups_step vgs line)) ->
  Forall Q (fst (get_volume_groups proc dry tr)).
Proof.
  intros Hstep. unfold get_volume_groups, bind.
  destruct (run_acli_command proc "vg.list" dry 30 false tr) as [[out|] tr'].
  - destruct dry; cbn [fst ret]; [constructor|].
    now apply fold_left_step_names.
  - unfold log, ret. cbn [fst]. constructor.
Qed.

Lemma main_list_vgs_names args tr :
  (forall vgs line, Forall Q vgs -> Forall Q (get_volume_groups_step vgs line)) ->
  (dry_run args = true ->
   (forall vgs line, Forall Q vgs -> Forall Q (main_dry_run_step vgs line))
   /\ Forall Q simulated_vgs) ->
  Forall Q (fst (main_list_vgs proc args tr)).
Proof.
  intros Hlive Hdry. unfold main_list_vgs, bind. unfold log at 1.
  cbv beta iota.
  pose proof (get_volume_groups_names (dry_run args)
                (tr ++ [Log INFO "Retrieving list of volume groups..." []])
                Hlive) as Hvgs.
  destruct (get_volume_groups proc (dry_run args) _) as [vgs tr1].
  cbn [fst] in Hvgs.
  destruct (dry_run args); [|exact Hvgs].
  destruct Hdry as [Hstep Hsim]; [reflexivity|].
  destruct (run_acli_command proc "vg.list" false 30 false tr1) as [o tr2].
  destruct (truthy_opt o).
  - destruct o as [out|]; cbn [fst ret]; [|exact Hvgs].
    now apply fold_left_step_names.
  - unfold log, ret. cbn [fst]. exact Hsim.
Qed.

End Enumeration.

Section EnumeratedNames.
Import PyStr.

Lemma step_head_spaceless line p ps :
  split line = p :: ps -> spaceless p = true.
Proof.
  intros H. pose proof (split_spaceless line) as Hs. rewrite H in Hs.
  now inversion Hs.
Qed.

Lemma get_volume_groups_step_spaceless vgs line :
  Forall (fun n => spaceless n = true) vgs ->
  Forall (fun n => spaceless n = true) (get_volume_groups_step vgs line).
Proof.
  intros H. unfold get_volume_groups_step.
  destruct (_ || _); [exact H|].
  destruct (split line) as [|p ps] eqn:E; [exact H|].
  apply Forall_app. split; [exact H|]. constructor; [|constructor].
  eapply step_head_spaceless, E.
Qed.

Lemma main_dry_run_step_spaceless vgs line :
  Forall (fun n => spaceless n = true) vgs ->
  Forall (fun n => spaceless n = true) (main_dry_run_step vgs line).
Proof.
  intros H. unfold main_dry_run_step.
  destruct (_ && _); [|exact H].
  destruct (split line) as [|p ps] eqn:E; [exact H|].
  apply Forall_app. split; [exact H|]. constructor; [|constructor].
  eapply step_head_spaceless, E.
Qed.

(** The names [main] finds have no whitespace in them. *)
Lemma main_vgs_spaceless proc args tr :
  Forall (fun n => spaceless n = true) (main_vgs proc args tr).
Proof.
  unfold main_vgs. apply main_list_vgs_names.
  - apply get_volume_groups_step_spaceless.
  - intros _. split; [apply main_dry_run_step_spaceless|].
    repeat constructor.
Qed.

(** The live enumeration keeps no line in which [Name] occurs, so no
    name in which it occurs. *)
Lemma get_volume_groups_step_no_Name vgs line :
  Forall (fun n => contains "Name" n = false) vgs ->
  Forall (fun n => contains "Name" n = false) (get_volume_groups_step vgs line).
Proof.
  intros H. unfold get_volume_groups_step.
  destruct (contains "Name" line) eqn:Hline;
    [now rewrite orb_true_r|].
  destruct (_ || _); [exact H|].
  destruct (split line) as [|p ps] eqn:E; [exact H|].
  apply Forall_app. split; [exact H|]. constructor; [|constructor].
  destruct (contains "Name" p) eqn:Hp; [|reflexivity].
  destruct (split_head _ _ _ E) as [a [b ->]].
  rewrite (contains_inside _ a p b Hp) in Hline. discriminate Hline.
Qed.

Lemma main_vgs_live_no_Name proc args tr :
  dry_run args = false ->
  Forall (fun n => contains "Name" n = false) (main_vgs proc args tr).
Proof.
  intros Hlive. unfold main_vgs. apply main_list_vgs_names.
  - apply get_volume_groups_step_no_Name.
  - intros Hdry. rewrite Hlive in Hdry. discriminate Hdry.
Qed.

Lemma main_targets_in proc args tr n :
  In n (main_targets proc args tr) ->
  In n (main_vgs proc args tr) /\ startswith n (prefix args) = true.
Proof.
  unfold main_targets, target_vgs_of. intros H.
  apply filter_In in H. exact H.
Qed.

End EnumeratedNames.

(** *** The volume groups a run processes *)

Lemma records_present template P tr l a :
  holds (records template) P tr -> In (Log l template a) tr -> P a.
Proof.
  unfold holds. rewrite Forall_forall. intros H Hin.
  apply H. apply in_flat_map. exists (Log l template a).
  split; [exact Hin|]. cbn. rewrite String.eqb_refl. now left.
Qed.

Section Processing.
Variable proc : World.
Variable P : list Arg -> Prop.

Lemma detach_vms_loop_processing vg_name vm_uuids dry success :
  preserves (records "Processing volume group: {}") P
    (detach_vms_loop proc vg_name vm_uuids dry success).
Proof.
  revert success. induction vm_uuids as [|u rest IH]; intros success;
    cbn [detach_vms_loop]; unfold run_acli_command; preserves_auto;
    apply IH.
Qed.

Lemma detach_disks_loop_processing vg_name disk_indexes dry success :
  preserves (records "Processing volume group: {}") P
    (detach_disks_loop proc vg_name disk_indexes dry success).
Proof.
  revert success. induction disk_indexes as [|d rest IH]; intros success;
    cbn [detach_disks_loop]; unfold run_acli_command; preserves_auto;
    apply IH.
Qed.

Lemma process_vg_processing args vg_name :
  P [AStr vg_name] ->
  preserves (records "Processing volume group: {}") P
    (process_vg proc args vg_name).
Proof.
  intros Hvg.
  pose proof detach_vms_loop_processing as Hvms.
  pose proof detach_disks_loop_processing as Hdisks.
  unfold process_vg, main_teardown, main_attached_vms, main_disk_indexes,
    get_vg_vms, get_vg_disks, detach_vms, detach_disks, delete_vg,
    run_acli_command.
  preserves_auto.
Qed.

Lemma main_loop_processing args target_vgs counts :
  (forall n, In n target_vgs -> P [AStr n]) ->
  preserves (records "Processing volume group: {}") P
    (main_loop proc args target_vgs counts).
Proof.
  revert counts. induction target_vgs as [|vg rest IH]; intros counts H;
    cbn [main_loop].
  - apply preserves_ret.
  - apply preserves_bind.
    + apply process_vg_processing, H. now left.
    + intros o. apply IH. intros n Hn. apply H. now right.
Qed.

Lemma main_prelude_processing args :
  preserves (records "Processing volume group: {}") P (main_banner args) /\
  preserves (records "Processing volume group: {}") P
    (main_list_vgs proc args) /\
  forall target_vgs counts,
    preserves (records "Processing volume group: {}") P
      (main_summary args target_vgs counts).
Proof.
  split; [|split; [|intros target_vgs counts]];
    unfold main_banner, main_list_vgs, main_summary, get_volume_groups,
      run_acli_command; preserves_auto.
Qed.

End Processing.

(** The iterations of a run are iterations on volume groups the run goes on
    with. *)
Lemma main_processing proc args name :
  In (processing_record name) (snd (main proc args [])) ->
  In name (main_targets proc args []).
Proof.
  set (P := fun a : list Arg =>
              exists n, In n (main_targets proc args []) /\ a = [AStr n]).
  intros Hin.
  assert (H : holds (records "Processing volume group: {}") P
                (snd (main proc args []))).
  { destruct (main_prelude_processing proc P args) as [Hb [Hl Hs]].
    assert (H1 : holds (records "Processing volume group: {}") P
                   (snd (main_list_vgs proc args (snd (main_banner args [])))))
      by (apply Hl, Hb; constructor).
    destruct (main_cases proc args []) as [[_ Hcase] | [_ Hcase]].
    - destruct Hcase as [[_ [_ ->]] | ->]; cbn [snd];
        repeat (apply holds_snoc; [|cbn; constructor]); exact H1.
    - rewrite Hcase.
      match goal with
      | |- context [main_loop proc args ?ts ?c ?t] =>
          assert (H2 : holds (records "Processing volume group: {}") P
                         (snd (main_loop proc args ts c t)));
          [apply main_loop_processing;
           [intros n Hn; now exists n
           |repeat (apply holds_snoc; [|cbn; constructor]); exact H1]
          |destruct (main_loop proc args ts c t) as [counts tr4]]
      end.
      apply Hs, H2. }
  destruct (records_present _ _ _ _ _ H Hin) as [n [Hn E]].
  injection E as ->. exact Hn.
Qed.

(** C4. A volume group that the enumeration returns and whose name does not
    start with the prefix is left alone: no command of the run is a
    describe, detach or delete command on it, and no iteration of the loop
    is opened for it.  The volume groups that enter the loop all start with
    the prefix. *)
Theorem C4_only_prefixed_names_are_processed :
  forall (proc : World) (args : Args),
    Forall (fun n => PyStr.startswith n (prefix args) = true)
      (main_targets proc args []) /\
    forall name,
      In name (main_vgs proc args []) ->
      PyStr.startswith name (prefix args) = false ->
      (forall c, In c (executed (snd (main proc args []))) -> ~ about name c) /\
      ~ In (processing_record name) (snd (main proc args [])).
Proof.
  intros proc args. split.
  - apply Forall_forall. intros n Hn. now apply main_targets_in in Hn.
  - intros name Hname Hprefix.
    pose proof (main_vgs_spaceless proc args []) as Hsp.
    rewrite Forall_forall in Hsp.
    assert (Hnot : ~ In name (main_targets proc args [])).
    { intros H. apply main_targets_in in H. destruct H as [_ H].
      rewrite H in Hprefix. discriminate Hprefix. }
    split.
    + intros c Hc Habout.
      destruct (main_executed proc args []) as [new [E Hnew]].
      rewrite E in Hc. cbn [executed app] in Hc. destruct Hc as [<- | Hc].
      * now apply about_list_call in Habout.
      * rewrite Forall_forall in Hnew.
        destruct (Hnew c Hc) as [n [Hn Hnc]]. apply Hnot.
        assert (n = name) as <-; [|exact Hn].
        apply (about_inj n name c); auto.
        apply Hsp. now apply main_targets_in in Hn.
    + intros H. apply Hnot. now apply main_processing.
Qed.

Lemma C4_prefix_witness :
  In "OTHER_VG"%string (main_vgs Lab.cluster Lab.force_args []) /\
  PyStr.startswith "OTHER_VG" (prefix Lab.force_args) = false /\
  ~ In (describe_call "OTHER_VG")
      (executed (snd (main Lab.cluster Lab.force_args []))) /\
  ~ In (processing_record "OTHER_VG") (snd (main Lab.cluster Lab.force_args [])).
Proof.
  assert (H1 : In "OTHER_VG"%string (main_vgs Lab.cluster Lab.force_args []))
    by (vm_compute; tauto).
  assert (H2 : PyStr.startswith "OTHER_VG" (prefix Lab.force_args) = false)
    by reflexivity.
  destruct (C4_only_prefixed_names_are_processed Lab.cluster Lab.force_args)
    as [_ H].
  destruct (H "OTHER_VG"%string H1 H2) as [H3 H4].
  split; [exact H1|]. split; [exact H2|]. split; [|exact H4].
  intros Hin. apply (H3 _ Hin). now left.
Defined.

(** C10. The live enumeration leaves out every line that is empty, that
    starts with [-] or in which [Name] occurs.  So no name in which [Name]
    occurs is returned by [get_volume_groups], and in a live run such a
    volume group is not among the volume groups found, does not enter the
    loop and has no iteration, whether or not it starts with the prefix. *)
Theorem C10_lines_with_Name_are_not_enumerated :
  (forall vgs line,
      line = EmptyString \/ PyStr.startswith line "-" = true
      \/ PyStr.contains "Name" line = true ->
      get_volume_groups_step vgs line = vgs) /\
  (forall proc tr name,
      In name (fst (get_volume_groups proc false tr)) ->
      PyStr.contains "Name" name = false) /\
  (forall proc args name,
      dry_run args = false ->
      PyStr.contains "Name" name = true ->
      ~ In name (main_vgs proc args []) /\
      ~ In name (main_targets proc args []) /\
      ~ In (processing_record name) (snd (main proc args []))).
Proof.
  split; [|split].
  - intros vgs line [-> | [H | H]]; unfold get_volume_groups_step.
    + reflexivity.
    + now rewrite H, orb_true_r.
    + now rewrite H, orb_true_r.
  - intros proc tr name Hin.
    pose proof (get_volume_groups_names proc
                  (fun n => PyStr.contains "Name" n = false) false tr
                  get_volume_groups_step_no_Name) as H.
    rewrite Forall_forall in H. now apply H.
  - intros proc args name Hlive Hname.
    pose proof (main_vgs_live_no_Name proc args [] Hlive) as H.
    rewrite Forall_forall in H.
    assert (Hvgs : ~ In name (main_vgs proc args [])).
    { intros Hin. apply H in Hin. rewrite Hin in Hname. discriminate Hname. }
    assert (Ht : ~ In name (main_targets proc args [])).
    { intros Hin. apply main_targets_in in Hin. now apply Hvgs. }
    split; [exact Hvgs|]. split; [exact Ht|].
    intros Hin. apply Ht. now apply main_processing.
Qed.

Lemma C10_Name_witness :
  get_volume_groups_step [] "TEST-Name-1  0005" = [] /\
  fst (get_volume_groups Lab.named_cluster false []) = ["TEST-2"%string] /\
  ~ In "TEST-Name-1"%string (main_targets Lab.named_cluster Lab.live_args []) /\
  ~ In (processing_record "TEST-Name-1")
      (snd (main Lab.named_cluster Lab.live_args [])).
Proof.
  destruct C10_lines_with_Name_are_not_enumerated as [H1 [_ H3]].
  destruct (H3 Lab.named_cluster Lab.live_args "TEST-Name-1"%string
              eq_refl eq_refl) as [_ [H4 H5]].
  split; [apply H1; right; right; reflexivity|].
  split; [reflexivity|]. split; assumption.
Defined.

(** * Further properties of the script *)

(** ** The two detach loops *)

Lemma all_ok_true_iff proc h cs :
  all_ok proc h cs = true <->
  forall pre c post, cs = pre ++ c :: post -> failed proc (h ++ pre) c = false.
Proof.
  revert h. induction cs as [|c0 cs IH]; intros h; cbn [all_ok].
  - split; [|reflexivity]. intros _ pre c post H.
    now destruct pre.
  - rewrite andb_true_iff, negb_true_iff, IH. split.
    + intros [H0 H] pre c post E. destruct pre as [|p pre]; cbn [app] in E.
      * injection E as <- _. now rewrite app_nil_r.
      * injection E as <- E.
        specialize (H pre c post E). now rewrite <- app_assoc in H.
    + intros H. split.
      * specialize (H [] c0 cs eq_refl). now rewrite app_nil_r in H.
      * intros pre c post E. specialize (H (c0 :: pre) c post).
        rewrite <- app_assoc. apply H. cbn [app]. now rewrite E.
Qed.

(** X1. In a live run the two detach loops go through their whole list, in
    order, whether or not an item fails, and report success exactly when no
    item failed. *)
Theorem X1_detach_loops_attempt_every_item :
  forall (proc : World) (vg_name : string) (tr : list Event),
    (forall vm_uuids,
        executed (snd (detach_vms proc vg_name vm_uuids false tr)) =
        executed tr ++ map (detach_call vg_name) vm_uuids /\
        (fst (detach_vms proc vg_name vm_uuids false tr) = true <->
         forall pre c post,
           map (detach_call vg_name) vm_uuids = pre ++ c :: post ->
           failed proc (executed tr ++ pre) c = false)) /\
    (forall disk_indexes,
        executed (snd (detach_disks proc vg_name disk_indexes false tr)) =
        executed tr ++ map (disk_delete_call vg_name) disk_indexes /\
        (fst (detach_disks proc vg_name disk_indexes false tr) = true <->
         forall pre c post,
           map (disk_delete_call vg_name) disk_indexes = pre ++ c :: post ->
           failed proc (executed tr ++ pre) c = false)).
Proof.
  intros proc vg_name tr. split.
  - intros vm_uuids.
    destruct (detach_vms_live proc vg_name vm_uuids tr) as [tr' [-> H]].
    cbn [fst snd]. split; [exact H | apply all_ok_true_iff].
  - intros disk_indexes.
    destruct (detach_disks_live proc vg_name disk_indexes tr) as [tr' [-> H]].
    cbn [fst snd]. split; [exact H | apply all_ok_true_iff].
Qed.

Lemma X1_detach_loops_witness :
  fst (detach_disks Lab.disk_cluster "TEST-9" ["0"; "1"; "2"] false [])
  = false /\
  executed (snd (detach_disks Lab.disk_cluster "TEST-9" ["0"; "1"; "2"]
                   false [])) =
  [disk_delete_call "TEST-9" "0"; disk_delete_call "TEST-9" "1";
   disk_delete_call "TEST-9" "2"].
Proof.
  destruct (X1_detach_loops_attempt_every_item Lab.disk_cluster
              "TEST-9"%string []) as [_ H].
  destruct (H ["0"; "1"; "2"]%string) as [H1 H2].
  split; [|exact H1].
  destruct (fst (detach_disks Lab.disk_cluster "TEST-9" ["0"; "1"; "2"]
                   false [])) eqn:E; [|reflexivity].
  assert (Hf := proj1 H2 eq_refl [disk_delete_call "TEST-9" "0"]
                  (disk_delete_call "TEST-9" "1")
                  [disk_delete_call "TEST-9" "2"] eq_refl).
  discriminate Hf.
Defined.

(** ** The order of the commands of an iteration *)

Lemma delete_call_fresh vg_name vm_uuids disk_indexes :
  ~ In (delete_call vg_name)
      ([describe_call vg_name] ++ map (detach_call vg_name) vm_uuids
       ++ [describe_call vg_name]
       ++ map (disk_delete_call vg_name) disk_indexes).
Proof.
  unfold delete_call, describe_call, detach_call, disk_delete_call.
  rewrite !in_app_iff, !in_map_iff. cbn [In append].
  intros [[H | []] | [[u [H _]] | [[H | []] | [i [H _]]]]];
    discriminate H.
Qed.

Lemma delete_call_fresh_disks vg_name disk_indexes :
  ~ In (delete_call vg_name)
      ([describe_call vg_name]
       ++ map (disk_delete_call vg_name) disk_indexes).
Proof.
  intros H. apply (delete_call_fresh vg_name [] disk_indexes).
  cbn [map app] in *. now right.
Qed.

(** X2. In a live run, when the delete of a disk fails the volume group is
    not deleted: the iteration ends as [FailedDetachSubResources] once all
    the disk deletes have been run, and the delete command of the volume
    group is not among the commands it has run. *)
Theorem X2_failed_disk_delete_keeps_volume_group :
  forall (proc : World) (args : Args) (vg_name : string) (tr : list Event)
         (pre : list string) (d : string) (post : list string),
    dry_run args = false ->
    fst (main_disk_indexes proc args vg_name tr) = pre ++ d :: post ->
    failed proc
      ((executed tr ++ [describe_call vg_name])
       ++ map (disk_delete_call vg_name) pre)
      (disk_delete_call vg_name d) = true ->
    fst (main_teardown proc args vg_name tr) = FailedDetachSubResources /\
    executed (snd (main_teardown proc args vg_name tr)) =
    executed tr
    ++ ([describe_call vg_name]
        ++ map (disk_delete_call vg_name) (pre ++ d :: post)) /\
    ~ In (delete_call vg_name)
        ([describe_call vg_name]
         ++ map (disk_delete_call vg_name) (pre ++ d :: post)).
Proof.
  intros proc args vg_name tr pre d post Hlive Hdisks Hfail.
  destruct (main_teardown_spec proc args vg_name tr) as [tr' [E1 E2]].
  rewrite E1. cbn [fst snd]. rewrite E2. clear E1 E2.
  destruct (main_disk_indexes_spec proc args vg_name tr) as [tr1 [E _]].
  rewrite E in Hdisks. cbn [fst] in *.
  unfold teardown_of. rewrite Hlive, Hdisks, map_app. cbn [map].
  rewrite (all_ok_failed _ _ _ _ _ Hfail). cbn [snd].
  split; [reflexivity|]. split; [now rewrite <- app_assoc|].
  pose proof (delete_call_fresh_disks vg_name (pre ++ d :: post)) as Hfresh.
  rewrite map_app in Hfresh. exact Hfresh.
Qed.

Lemma X2_failed_disk_delete_witness :
  fst (main_teardown Lab.disk_cluster Lab.live_args "TEST-9" []) =
  FailedDetachSubResources /\
  executed (snd (main_teardown Lab.disk_cluster Lab.live_args "TEST-9" [])) =
  [describe_call "TEST-9"; disk_delete_call "TEST-9" "0";
   disk_delete_call "TEST-9" "1"; disk_delete_call "TEST-9" "2"].
Proof.
  destruct (X2_failed_disk_delete_keeps_volume_group Lab.disk_cluster
              Lab.live_args "TEST-9"%string [] ["0"%string] "1"%string
              ["2"%string] eq_refl eq_refl eq_refl) as [H1 [H2 _]].
  split; [exact H1 | exact H2].
Defined.

Section DeleteLast.
Variable proc : World.

Lemma teardown_of_delete args vg_name h :
  dry_run args = false ->
  exists pre,
    ~ In (delete_call vg_name) pre /\
    ((snd (teardown_of proc args vg_name h) = h ++ pre ++ [delete_call vg_name]
      /\ fst (teardown_of proc args vg_name h) =
         if failed proc (h ++ pre) (delete_call vg_name)
         then FailedDelete else Succeeded)
     \/
     (snd (teardown_of proc args vg_name h) = h ++ pre
      /\ fst (teardown_of proc args vg_name h) = FailedDetachSubResources)).
Proof.
  intros Hlive. unfold teardown_of. rewrite Hlive.
  set (disks := disks_of args _).
  exists ([describe_call vg_name] ++ map (disk_delete_call vg_name) disks).
  split; [apply delete_call_fresh_disks|].
  destruct (all_ok proc _ _); cbn [fst snd]; [left | right];
    rewrite <- !app_assoc; rewrite ?app_assoc; split; reflexivity.
Qed.

Lemma iteration_of_delete args vg_name h :
  dry_run args = false ->
  exists pre,
    ~ In (delete_call vg_name) pre /\
    ((snd (iteration_of proc args vg_name h) = h ++ pre ++ [delete_call vg_name]
      /\ fst (iteration_of proc args vg_name h) =
         if failed proc (h ++ pre) (delete_call vg_name)
         then FailedDelete else Succeeded)
     \/
     (snd (iteration_of proc args vg_name h) = h ++ pre
      /\ fst (iteration_of proc args vg_name h) <> Succeeded
      /\ fst (iteration_of proc args vg_name h) <> FailedDelete)).
Proof.
  intros Hlive.
  assert (Hnext : forall cs,
             ~ In (delete_call vg_name) cs ->
             exists pre,
               ~ In (delete_call vg_name) pre /\
               ((snd (teardown_of proc args vg_name (h ++ cs))
                 = h ++ pre ++ [delete_call vg_name]
                 /\ fst (teardown_of proc args vg_name (h ++ cs)) =
                    if failed proc (h ++ pre) (delete_call vg_name)
                    then FailedDelete else Succeeded)
                \/
                (snd (teardown_of proc args vg_name (h ++ cs)) = h ++ pre
                 /\ fst (teardown_of proc args vg_name (h ++ cs)) <> Succeeded
                 /\ fst (teardown_of proc args vg_name (h ++ cs))
                    <> FailedDelete))).
  { intros cs Hcs.
    destruct (teardown_of_delete args vg_name (h ++ cs) Hlive)
      as [pre [Hpre [[E1 E2] | [E1 E2]]]];
      exists (cs ++ pre);
      (split; [rewrite in_app_iff; tauto|]); [left | right].
    - rewrite E1, E2, <- !app_assoc. split; reflexivity.
    - rewrite E1, E2, <- !app_assoc. repeat split; discriminate. }
  assert (Hd : ~ In (delete_call vg_name) [describe_call vg_name])
    by (intros [H | []]; unfold describe_call, delete_call in H;
        cbn [append] in H; discriminate H).
  unfold iteration_of. rewrite Hlive.
  set (vms := vms_of args _).
  assert (Hcs : ~ In (delete_call vg_name)
                  ([describe_call vg_name] ++ map (detach_call vg_name) vms)).
  { intros H. apply (delete_call_fresh vg_name vms []).
    rewrite !in_app_iff in *. tauto. }
  destruct (nonempty vms).
  - destruct (force args).
    + destruct (all_ok proc _ _).
      * rewrite <- app_assoc. now apply Hnext.
      * exists ([describe_call vg_name] ++ map (detach_call vg_name) vms).
        split; [exact Hcs|]. right. cbn [fst snd]. rewrite <- app_assoc.
        repeat split; discriminate.
    + exists [describe_call vg_name]. split; [exact Hd|]. right.
      cbn [fst snd]. repeat split; discriminate.
  - now apply Hnext.
Qed.

Lemma teardown_of_shape args vg_name h :
  exists disk_indexes new rest,
    snd (teardown_of proc args vg_name h) = h ++ new /\
    [describe_call vg_name] ++ map (disk_delete_call vg_name) disk_indexes
    ++ [delete_call vg_name] = new ++ rest.
Proof.
  unfold teardown_of. set (disks := disks_of args _).
  destruct (dry_run args); [|destruct (all_ok proc _ _)]; cbn [snd].
  - exists [], [describe_call vg_name], [delete_call vg_name].
    split; reflexivity.
  - exists disks,
      ([describe_call vg_name] ++ map (disk_delete_call vg_name) disks
       ++ [delete_call vg_name]), [].
    split; [now rewrite <- !app_assoc | now rewrite app_nil_r].
  - exists disks,
      ([describe_call vg_name] ++ map (disk_delete_call vg_name) disks),
      [delete_call vg_name].
    split; now rewrite <- !app_assoc.
Qed.

Lemma iteration_of_shape args vg_name h :
  exists vm_uuids disk_indexes new rest,
    snd (iteration_of proc args vg_name h) = h ++ new /\
    full_iteration vg_name vm_uuids disk_indexes = new ++ rest.
Proof.
  assert (Hnext : forall vms,
             exists disk_indexes new rest,
               snd (teardown_of proc args vg_name
                      (h ++ [describe_call vg_name]
                       ++ map (detach_call vg_name) vms)) = h ++ new /\
               full_iteration vg_name vms disk_indexes = new ++ rest).
  { intros vms.
    destruct (teardown_of_shape args vg_name
                (h ++ [describe_call vg_name]
                 ++ map (detach_call vg_name) vms))
      as [disks [new [rest [E1 E2]]]].
    exists disks, (([describe_call vg_name]
                    ++ map (detach_call vg_name) vms) ++ new), rest.
    rewrite E1. unfold full_iteration. rewrite <- !app_assoc.
    split; [reflexivity|]. now rewrite <- E2. }
  unfold iteration_of. set (vms := vms_of args _).
  destruct (nonempty vms); [destruct (force args);
                            [destruct (dry_run args);
                             [|destruct (all_ok proc _ _)]|]|].
  - exists []. apply (Hnext []).
  - exists vms. rewrite <- app_assoc. apply Hnext.
  - exists vms, [], ([describe_call vg_name]
                     ++ map (detach_call vg_name) vms),
      [describe_call vg_name; delete_call vg_name].
    cbn [snd]. rewrite <- app_assoc. split; [reflexivity|].
    unfold full_iteration. rewrite <- !app_assoc. reflexivity.
  - exists [], [], [describe_call vg_name],
      [describe_call vg_name; delete_call vg_name].
    split; reflexivity.
  - exists []. apply (Hnext []).
Qed.

End DeleteLast.

(** X3. In a live run an iteration runs the delete command of its volume
    group at most once, as its last command.  The iteration ends as
    [Succeeded] when that command was run and did not fail, as
    [FailedDelete] when it was run and failed, and with one of the three
    other outcomes when it was not run. *)
Theorem X3_delete_is_last_and_decides_success :
  forall (proc : World) (args : Args) (vg_name : string) (tr : list Event),
    dry_run args = false ->
    exists pre,
      ~ In (delete_call vg_name) pre /\
      ((executed (snd (process_vg proc args vg_name tr)) =
        executed tr ++ pre ++ [delete_call vg_name]
        /\ fst (process_vg proc args vg_name tr) =
           if failed proc (executed tr ++ pre) (delete_call vg_name)
           then FailedDelete else Succeeded)
       \/
       (executed (snd (process_vg proc args vg_name tr)) = executed tr ++ pre
        /\ fst (process_vg proc args vg_name tr) <> Succeeded
        /\ fst (process_vg proc args vg_name tr) <> FailedDelete)).
Proof.
  intros proc args vg_name tr Hlive.
  rewrite process_vg_fst, process_vg_executed.
  now apply iteration_of_delete.
Qed.

Lemma X3_delete_is_last_witness :
  fst (process_vg Lab.healthy_cluster Lab.live_args "TEST-9" []) = Succeeded /\
  fst (process_vg Lab.disk_cluster Lab.live_args "TEST-9" []) <> Succeeded.
Proof.
  destruct (X3_delete_is_last_and_decides_success Lab.healthy_cluster
              Lab.live_args "TEST-9"%string [] eq_refl) as [pre _].
  split; [reflexivity | discriminate].
Defined.

(** X4. In both modes the commands of an iteration are run in the order
    describe, detach the consumers, describe, delete the disks, delete the
    volume group: they are the first commands of such a sequence. *)
Theorem X4_iteration_runs_in_dependency_order :
  forall (proc : World) (args : Args) (vg_name : string) (tr : list Event),
    exists vm_uuids disk_indexes new rest,
      executed (snd (process_vg proc args vg_name tr)) = executed tr ++ new /\
      full_iteration vg_name vm_uuids disk_indexes = new ++ rest.
Proof.
  intros proc args vg_name tr. rewrite process_vg_executed.
  apply iteration_of_shape.
Qed.

(** ** Dry runs and the consumer gate *)

Lemma vms_of_mode args args' :
  dry_run args' = dry_run args -> vms_of args' = vms_of args.
Proof. intros H. unfold vms_of. now rewrite H. Qed.

Lemma teardown_of_mode proc args args' vg_name h :
  dry_run args' = dry_run args ->
  teardown_of proc args' vg_name h = teardown_of proc args vg_name h.
Proof. intros H. unfold teardown_of, disks_of. now rewrite H. Qed.

Lemma iteration_of_dry proc args vg_name h :
  dry_run args = true ->
  fst (iteration_of proc args vg_name h) =
  if nonempty (vms_of args (described proc vg_name h)) && negb (force args)
  then SkippedConsumersAttached else Succeeded.
Proof.
  intros Hdry. unfold iteration_of, teardown_of. rewrite Hdry.
  destruct (nonempty _); [destruct (force args)|]; reflexivity.
Qed.

(** X5. In a dry run an iteration ends as [Succeeded], except for a volume
    group with consumers when [--force] is not given, which is skipped; so a
    dry run with [--force] counts every candidate as a success and none as
    a failure. *)
Theorem X5_dry_run_counts_successes :
  forall (proc : World) (args : Args),
    dry_run args = true ->
    (forall vg_name tr,
        fst (process_vg proc args vg_name tr) =
        if nonempty (attached_vms_at proc args vg_name tr) && negb (force args)
        then SkippedConsumersAttached else Succeeded) /\
    (force args = true ->
     forall target_vgs counts tr,
       fst (main_loop proc args target_vgs counts tr) =
       ((fst counts + len target_vgs)%Z, snd counts)).
Proof.
  intros proc args Hdry.
  assert (H1 : forall vg_name tr,
             fst (process_vg proc args vg_name tr) =
             if nonempty (attached_vms_at proc args vg_name tr)
                && negb (force args)
             then SkippedConsumersAttached else Succeeded).
  { intros vg_name tr.
    rewrite process_vg_fst, attached_vms_at_spec.
    now apply iteration_of_dry. }
  split; [exact H1|].
  intros Hforce target_vgs.
  induction target_vgs as [|vg rest IH]; intros [s f] tr.
  - cbn. unfold len. cbn. f_equal. lia.
  - cbn [main_loop]. unfold bind.
    specialize (H1 vg tr). rewrite Hforce, andb_false_r in H1.
    destruct (process_vg proc args vg tr) as [o tr'].
    cbn [fst] in H1. subst o. rewrite IH. cbn [count fst snd].
    unfold len. cbn [List.length]. f_equal. lia.
Qed.

Lemma X5_dry_run_witness :
  fst (main_loop Lab.cluster Lab.dry_args ["TEST-1"; "TEST-2"] (0, 0)%Z [])
  = (2%Z, 0%Z).
Proof.
  destruct (X5_dry_run_counts_successes Lab.cluster Lab.dry_args eq_refl)
    as [_ H].
  exact (H eq_refl ["TEST-1"; "TEST-2"]%string (0, 0)%Z []).
Defined.

(** X6. For a volume group without consumers [--force] changes nothing:
    two runs in the same mode run the same commands on it and end its
    iteration with the same outcome. *)
Theorem X6_force_is_irrelevant_without_consumers :
  forall (proc : World) (args args' : Args) (vg_name : string)
         (tr : list Event),
    dry_run args' = dry_run args ->
    attached_vms_at proc args vg_name tr = [] ->
    fst (process_vg proc args' vg_name tr) =
    fst (process_vg proc args vg_name tr) /\
    executed (snd (process_vg proc args' vg_name tr)) =
    executed (snd (process_vg proc args vg_name tr)).
Proof.
  intros proc args args' vg_name tr Hmode Hvms.
  rewrite attached_vms_at_spec in Hvms.
  rewrite !process_vg_fst, !process_vg_executed. unfold iteration_of.
  rewrite (vms_of_mode args args' Hmode), Hvms. cbn [nonempty].
  rewrite (teardown_of_mode proc args args' _ _ Hmode). split; reflexivity.
Qed.

Lemma X6_force_witness :
  attached_vms_at Lab.cluster Lab.live_args "TEST-2" [] = [] /\
  fst (process_vg Lab.cluster Lab.force_args "TEST-2" []) =
  fst (process_vg Lab.cluster Lab.live_args "TEST-2" []).
Proof.
  split; [reflexivity|].
  apply (X6_force_is_irrelevant_without_consumers Lab.cluster Lab.live_args
           Lab.force_args "TEST-2"%string []); reflexivity.
Defined.

(** X7. The consumers a dry run finds for a volume group are those a live
    run finds, or none: the two agree whenever the description has an
    attachment type, and without one the dry run finds no consumer. *)
Theorem X7_dry_run_finds_live_consumers_or_none :
  forall (proc : World) (args_dry args_live : Args) (vg_name : string)
         (tr : list Event),
    dry_run args_dry = true ->
    dry_run args_live = false ->
    (attached_vms_at proc args_dry vg_name tr =
     attached_vms_at proc args_live vg_name tr
     \/ attached_vms_at proc args_dry vg_name tr = []) /\
    (forall output attachment_type,
        described proc vg_name (executed tr) = Some output ->
        Re.search Re.attachment_type_re output = Some attachment_type ->
        attached_vms_at proc args_dry vg_name tr =
        attached_vms_at proc args_live vg_name tr) /\
    (forall output,
        described proc vg_name (executed tr) = Some output ->
        Re.search Re.attachment_type_re output = None ->
        attached_vms_at proc args_dry vg_name tr = [] /\
        attached_vms_at proc args_live vg_name tr =
        Re.findall Re.attachment_list_re output).
Proof.
  intros proc args_dry args_live vg_name tr Hdry Hlive.
  rewrite !attached_vms_at_spec. unfold vms_of. rewrite Hdry, Hlive.
  destruct (described proc vg_name (executed tr)) as [out|].
  - destruct out as [|c out]; cbn [truthy_opt PyStr.truthy].
    + split; [now left|]. split.
      * intros output t E. injection E as <-. discriminate.
      * intros output E _. injection E as <-. split; reflexivity.
    + destruct (Re.search Re.attachment_type_re (String c out)) as [t|] eqn:Hs.
      * assert (E : (if negb (String.eqb t "kNone")
                     then Re.findall Re.attachment_list_re (String c out)
                     else []) =
                    (if String.eqb t "kNone" then []
                     else Re.findall Re.attachment_list_re (String c out)))
          by (destruct (String.eqb t "kNone"); reflexivity).
        rewrite E. split; [now left|]. split; [reflexivity|].
        intros output E' Hnone. injection E' as <-.
        rewrite Hs in Hnone. discriminate Hnone.
      * split; [now right|]. split.
        -- intros output t E. injection E as <-. rewrite Hs. discriminate.
        -- intros output E _. injection E as <-. split; reflexivity.
  - split; [now left|]. split; intros; discriminate.
Qed.

Lemma X7_dry_run_consumers_witness :
  attached_vms_at Lab.untyped_cluster Lab.dry_args "TEST-7" [] = [] /\
  attached_vms_at Lab.untyped_cluster Lab.force_args "TEST-7" [] =
  ["vm-7"%string].
Proof.
  destruct (X7_dry_run_finds_live_consumers_or_none Lab.untyped_cluster
              Lab.dry_args Lab.force_args "TEST-7"%string [] eq_refl eq_refl)
    as [_ [_ H]].
  destruct (H _ eq_refl eq_refl) as [H1 H2].
  split; [exact H1 | rewrite H2; reflexivity].
Defined.

(** ** The list command *)

(** [main_list_vgs] computes [vgs_of] on the result of the list command. *)
Lemma main_list_vgs_spec proc args tr :
  fst (main_list_vgs proc args tr) =
  vgs_of args (acli_result (proc (executed tr) "acli vg.list" 30%Z)).
Proof.
  unfold main_list_vgs, get_volume_groups, vgs_of, bind. unfold log at 1.
  cbv beta iota.
  destruct (dry_run args).
  - rewrite run_acli_command_dry. unfold ret at 1. cbv beta iota.
    run_live E. rewrite !executed_log in Hres.
    change (acli_result _) with
      (acli_result (proc (executed tr) ("acli " ++ "vg.list")%string 30%Z)).
    rewrite <- Hres.
    destruct o as [out|]; cbn [truthy_opt];
      [destruct (PyStr.truthy out)|]; reflexivity.
  - run_live E. rewrite !executed_log in Hres.
    change (acli_result _) with
      (acli_result (proc (executed tr) ("acli " ++ "vg.list")%string 30%Z)).
    rewrite <- Hres. destruct o as [out|]; reflexivity.
Qed.

Lemma main_vgs_spec proc args :
  main_vgs proc args [] =
  vgs_of args (acli_result (proc [] "acli vg.list" 30%Z)).
Proof.
  unfold main_vgs. rewrite main_list_vgs_spec, main_banner_executed.
  reflexivity.
Qed.

Lemma main_without_targets proc args :
  main_targets proc args [] = [] ->
  executed (snd (main proc args [])) = [list_call].
Proof.
  intros Ht.
  pose proof (main_list_vgs_executed proc args (snd (main_banner args [])))
    as Hl.
  rewrite main_banner_executed in Hl.
  destruct (main_cases proc args []) as [[_ Hcase] | [Hne _]];
    [|contradiction].
  destruct Hcase as [[_ [_ ->]] | ->]; cbn [snd];
    rewrite ?executed_log; exact Hl.
Qed.

(** X8. When the list command times out, the marker [TIMEOUT] that
    [run_acli_command] returns is read as the list: in both modes the run
    goes on with one volume group named [TIMEOUT], which enters the loop
    when it starts with the prefix. *)
Theorem X8_list_timeout_is_read_as_a_name :
  forall (proc : World) (args : Args),
    proc [] "acli vg.list"%string 30%Z = TimeoutExpired ->
    main_vgs proc args [] = ["TIMEOUT"%string] /\
    main_targets proc args [] =
    if PyStr.startswith "TIMEOUT" (prefix args) then ["TIMEOUT"%string]
    else [].
Proof.
  intros proc args Htimeout.
  assert (H : main_vgs proc args [] = ["TIMEOUT"%string]).
  { rewrite main_vgs_spec, Htimeout. unfold vgs_of.
    destruct (dry_run args); reflexivity. }
  split; [exact H|]. unfold main_targets, target_vgs_of. rewrite H.
  cbn [filter]. destruct (PyStr.startswith _ _); reflexivity.
Qed.

Lemma X8_list_timeout_witness :
  main_vgs Lab.silent_cluster Lab.live_args [] = ["TIMEOUT"%string] /\
  main_targets Lab.silent_cluster Lab.live_args [] = [].
Proof.
  apply (X8_list_timeout_is_read_as_a_name Lab.silent_cluster Lab.live_args).
  reflexivity.
Defined.

(** X9. A describe command that times out is read as an empty description:
    in both modes the iteration finds no consumer and no disk, and in a live
    run it goes on to the delete command of the volume group. *)
Theorem X9_describe_timeout_fails_open :
  forall (proc : World) (args : Args) (vg_name : string) (tr : list Event),
    (forall h,
        proc h (fst (describe_call vg_name)) (snd (describe_call vg_name)) =
        TimeoutExpired) ->
    attached_vms_at proc args vg_name tr = [] /\
    fst (main_disk_indexes proc args vg_name tr) = [] /\
    (dry_run args = false ->
     executed (snd (process_vg proc args vg_name tr)) =
     executed tr
     ++ [describe_call vg_name; describe_call vg_name; delete_call vg_name]).
Proof.
  intros proc args vg_name tr Htimeout.
  assert (Hd : forall h, described proc vg_name h = Some "TIMEOUT"%string)
    by (intros h; unfold described; now rewrite Htimeout).
  assert (Hvms : vms_of args (Some "TIMEOUT"%string) = [])
    by (unfold vms_of; destruct (dry_run args); reflexivity).
  assert (Hdisks : disks_of args (Some "TIMEOUT"%string) = [])
    by (unfold disks_of; destruct (dry_run args); reflexivity).
  split; [|split].
  - now rewrite attached_vms_at_spec, Hd.
  - destruct (main_disk_indexes_spec proc args vg_name tr) as [tr1 [-> _]].
    cbn [fst]. now rewrite Hd.
  - intros Hlive. rewrite process_vg_executed.
    unfold iteration_of, teardown_of. rewrite !Hd, Hvms, Hdisks, Hlive.
    cbn [nonempty map all_ok snd]. rewrite <- !app_assoc.
    reflexivity.
Qed.

Lemma X9_describe_timeout_witness :
  executed (snd (process_vg Lab.silent_cluster Lab.live_args "TEST-1" [])) =
  [describe_call "TEST-1"; describe_call "TEST-1"; delete_call "TEST-1"].
Proof.
  destruct (X9_describe_timeout_fails_open Lab.silent_cluster Lab.live_args
              "TEST-1"%string [] (fun h => eq_refl)) as [_ [_ H]].
  exact (H eq_refl).
Defined.

(** X10. A run in which no volume group starts with the prefix runs the
    list command and no other command.  This is the case of a live run
    whose list command fails: it finds no volume group and logs the
    failure. *)
Theorem X10_no_candidate_runs_only_the_list_command :
  forall (proc : World) (args : Args),
    (main_targets proc args [] = [] ->
     executed (snd (main proc args [])) = [list_call]) /\
    (dry_run args = false ->
     failed proc [] list_call = true ->
     main_vgs proc args [] = [] /\
     executed (snd (main proc args [])) = [list_call] /\
     In (Log ERROR "Failed to retrieve volume groups" [])
       (snd (main proc args []))).
Proof.
  intros proc args. split; [apply main_without_targets|].
  intros Hlive Hfail.
  assert (Hnone : acli_result (proc [] "acli vg.list"%string 30%Z) = None).
  { unfold failed, list_call in Hfail. cbn [fst snd] in Hfail.
    destruct (acli_result _); [discriminate Hfail | reflexivity]. }
  assert (Hvgs : main_vgs proc args [] = []).
  { rewrite main_vgs_spec, Hnone. unfold vgs_of. now rewrite Hlive. }
  split; [exact Hvgs|]. split.
  - apply main_without_targets. unfold main_targets. now rewrite Hvgs.
  - destruct (main_cases proc args []) as [[_ Hcase] | [Hne _]].
    + assert (Hin : In (Log ERROR "Failed to retrieve volume groups" [])
                      (snd (main_list_vgs proc args (snd (main_banner args []))))).
      { unfold main_list_vgs, get_volume_groups, bind. unfold log at 1.
        cbv beta iota. rewrite Hlive.
        match goal with
        | |- context [run_acli_command proc ?c false ?t ?k ?tr0] =>
            pose proof (run_acli_command_live_fst proc c t k tr0) as Hres;
            destruct (run_acli_command proc c false t k tr0) as [o tr1]
        end.
        cbn [fst shell_command] in Hres.
        rewrite executed_log, main_banner_executed in Hres.
        change (acli_result _) with
          (acli_result (proc [] "acli vg.list"%string 30%Z)) in Hres.
        rewrite Hnone in Hres. subst o. unfold log, ret. cbn [snd].
        apply in_or_app. right. now left. }
      destruct Hcase as [[_ [_ ->]] | ->]; cbn [snd];
        rewrite ?in_app_iff; tauto.
    + exfalso. apply Hne. unfold main_targets. now rewrite Hvgs.
Qed.

Lemma X10_no_candidate_witness :
  executed (snd (main Lab.broken_cluster Lab.live_args [])) = [list_call] /\
  executed (snd (main Lab.empty_cluster Lab.live_args [])) = [list_call].
Proof.
  destruct (X10_no_candidate_runs_only_the_list_command Lab.broken_cluster
              Lab.live_args) as [_ H].
  destruct (H eq_refl eq_refl) as [_ [H1 _]].
  destruct (X10_no_candidate_runs_only_the_list_command Lab.empty_cluster
              Lab.live_args) as [H2 _].
  split; [exact H1 | apply H2; reflexivity].
Defined.

(** X11. A dry run whose list command fails or returns nothing goes on with
    the four simulated volume groups; one whose list command returns a text
    reads its volume groups from it. *)
Theorem X11_dry_run_falls_back_to_simulated_list :
  forall (proc : World) (args : Args),
    dry_run args = true ->
    (acli_result (proc [] "acli vg.list"%string 30%Z) = None
     \/ acli_result (proc [] "acli vg.list"%string 30%Z) = Some ""%string ->
     main_vgs proc args [] = simulated_vgs) /\
    (forall c output,
        acli_result (proc [] "acli vg.list"%string 30%Z)
        = Some (String c output) ->
        main_vgs proc args [] =
        fold_left main_dry_run_step (PyStr.splitlines (String c output)) []).
Proof.
  intros proc args Hdry. rewrite main_vgs_spec. unfold vgs_of. rewrite Hdry.
  split.
  - intros [-> | ->]; reflexivity.
  - intros c output ->. reflexivity.
Qed.

Lemma X11_dry_run_fallback_witness :
  main_vgs Lab.broken_cluster Lab.dry_args [] =
  ["EXAMPLE_VG1"; "EXAMPLE_VG2"; "OTHER_VG"; "ANOTHER_VG"]%string.
Proof.
  destruct (X11_dry_run_falls_back_to_simulated_list Lab.broken_cluster
              Lab.dry_args eq_refl) as [H _].
  apply H. left. reflexivity.
Defined.

(** ** What the extraction returns *)

Section Extraction.
Import PyStr Re.









End Extraction.




(** ** The lines of the list *)

Section Lines.
Import PyStr.

Lemma split_aux_truthy s cur :
  Forall (fun t => truthy t = true) (split_aux cur s).
Proof.
  revert cur. induction s as [|c s IH]; intros cur; cbn [split_aux].
  - destruct (truthy cur) eqn:E; repeat constructor. exact E.
  - destruct (isspace c); [|apply IH].
    destruct (truthy cur) eqn:E; [constructor; [exact E|]|]; apply IH.
Qed.

Lemma split_head_named line p ps :
  split line = p :: ps -> p <> EmptyString /\ spaceless p = true.
Proof.
  intros E. split.
  - pose proof (split_aux_truthy line EmptyString) as H.
    unfold split in E. rewrite E in H. inversion H as [|? ? Hp _].
    intros ->. discriminate Hp.
  - eapply step_head_spaceless, E.
Qed.

Lemma lstrip_blank line :
  all_chars isspace line = true -> lstrip line = EmptyString.
Proof.
  induction line as [|c line IH]; cbn [all_chars lstrip]; [reflexivity|].
  intros H. apply andb_true_iff in H. destruct H as [Hc H].
  rewrite Hc. now apply IH.
Qed.

Lemma split_blank line :
  all_chars isspace line = true -> split line = [].
Proof.
  unfold split. induction line as [|c line IH]; cbn [all_chars split_aux];
    [reflexivity|].
  intros H. apply andb_true_iff in H. destruct H as [Hc H].
  rewrite Hc. cbn [truthy]. now apply IH.
Qed.

End Lines.

(** X13. In both modes the names of the volume groups a run finds are not
    empty and have no whitespace in them. *)
Theorem X13_enumerated_names_are_single_words :
  forall (proc : World) (args : Args) (tr : list Event),
    Forall (fun n => n <> EmptyString /\ spaceless n = true)
      (main_vgs proc args tr).
Proof.
  intros proc args tr. unfold main_vgs.
  assert (Hhead : forall vgs line p ps,
             Forall (fun n => n <> EmptyString /\ spaceless n = true) vgs ->
             PyStr.split line = p :: ps ->
             Forall (fun n => n <> EmptyString /\ spaceless n = true)
               (vgs ++ [p])).
  { intros vgs line p ps H E. apply Forall_app. split; [exact H|].
    constructor; [|constructor]. eapply split_head_named, E. }
  apply main_list_vgs_names.
  - intros vgs line H. unfold get_volume_groups_step.
    destruct (_ || _); [exact H|].
    destruct (PyStr.split line) as [|p ps] eqn:E; [exact H|].
    now apply (Hhead vgs line p ps).
  - intros _. split.
    + intros vgs line H. unfold main_dry_run_step.
      destruct (_ && _); [|exact H].
      destruct (PyStr.split line) as [|p ps] eqn:E; [exact H|].
      now apply (Hhead vgs line p ps).
    + repeat constructor; discriminate.
Qed.

(** X14. A line made of whitespace only gives no volume group, in the
    live enumeration and in the one of the dry run. *)
Theorem X14_blank_lines_are_skipped :
  forall (vgs : list string) (line : string),
    all_chars PyStr.isspace line = true ->
    get_volume_groups_step vgs line = vgs /\
    main_dry_run_step vgs line = vgs.
Proof.
  intros vgs line H. split.
  - unfold get_volume_groups_step, PyStr.strip.
    rewrite (lstrip_blank line H). reflexivity.
  - unfold main_dry_run_step. rewrite (split_blank line H). reflexivity.
Qed.

Lemma X14_blank_lines_witness :
  get_volume_groups_step ["TEST-1"%string] "   " = ["TEST-1"%string] /\
  main_dry_run_step ["TEST-1"%string] "   " = ["TEST-1"%string].
Proof.
  apply (X14_blank_lines_are_skipped ["TEST-1"%string] "   "%string).
  reflexivity.
Defined.

(** X15. In every run the piped confirmation is given to the detach and
    delete commands and to no other command. *)
Theorem X15_confirmation_is_piped_to_mutating_commands_only :
  forall (proc : World) (args : Args),
    Forall (fun c => confirmed (fst c) = is_mutating (fst c))
      (executed (snd (main proc args []))).
Proof.
  intros proc args.
  destruct (main_executed proc args []) as [new [-> H]]. cbn [app].
  constructor; [reflexivity|].
  eapply Forall_impl; [|exact H].
  intros c [n [_ [-> | [[u ->] | [[i ->] | ->]]]]]; reflexivity.
Qed.

(** ** What a run adds to the trace *)

Section Emits.
Context (R : list Event -> Prop).
Hypothesis R_nil : R [].
Hypothesis R_app : forall e1 e2, R e1 -> R e2 -> R (e1 ++ e2).

Lemma emits_ret {A} (a : A) : emits R (ret a).
Proof. intros tr. exists []. cbn. now rewrite app_nil_r. Qed.

Lemma emits_log l t a : R [Log l t a] -> emits R (log l t a).
Proof. intros H tr. exists [Log l t a]. now split. Qed.

Lemma emits_bind {A B} (m : M A) (k : A -> M B) :
  emits R m -> (forall a, emits R (k a)) -> emits R (bind m k).
Proof.
  intros Hm Hk tr. unfold bind. destruct (Hm tr) as [e1 [E1 H1]].
  destruct (m tr) as [a tr1]. cbn [snd] in E1. subst tr1.
  destruct (Hk a (tr ++ e1)) as [e2 [E2 H2]].
  exists (e1 ++ e2). rewrite E2, app_assoc. split; [reflexivity|].
  now apply R_app.
Qed.

(** The record that announces a command, and the command. *)
Lemma emits_announce {B} proc c t (k : ProcResult -> M B) :
  R [Log INFO "Executing: {}" [AStr c]; Exec c t] ->
  (forall r, emits R (k r)) ->
  emits R (bind (log INFO "Executing: {}" [AStr c])
             (fun _ => bind (popen proc c t) k)).
Proof.
  intros H Hk tr. unfold bind, log, popen. cbv beta iota.
  match goal with
  | |- context [k ?r ?t0] => destruct (Hk r t0) as [e2 [E2 H2]]
  end.
  exists ([Log INFO "Executing: {}" [AStr c]; Exec c t] ++ e2).
  rewrite E2, <- !app_assoc. split; [reflexivity|]. now apply R_app.
Qed.

End Emits.

(** One step of a proof of [emits], along the structure of the computation;
    [leaf] proves that the events of a step satisfy the property. *)
Ltac emits_step Hnil Happ leaf :=
  match goal with
  | H : true = false |- _ => discriminate H
  | H : false = true |- _ => discriminate H
  | |- emits _ (ret _) => apply emits_ret; exact Hnil
  | |- emits _ (bind (log INFO _ _) (fun _ => bind (popen _ _ _) _)) =>
      apply emits_announce; [exact Happ | leaf | intros ?]
  | |- emits _ (log _ _ _) => apply emits_log; leaf
  | |- emits _ (bind _ _) => apply emits_bind; [exact Happ | | intros ?]
  | |- emits _ (if true then _ else _) => cbv iota
  | |- emits _ (if false then _ else _) => cbv iota
  | |- emits _ (if ?b then _ else _) => destruct b eqn:?
  | |- emits _ (match ?x with _ => _ end) => destruct x eqn:?
  | |- emits _ _ => solve [auto]
  end.

Ltac emits_auto Hnil Happ leaf :=
  repeat (cbv zeta; emits_step Hnil Happ leaf).

(** *** Every command is announced *)

Lemma announced_app e1 e2 :
  announced e1 -> announced e2 -> announced (e1 ++ e2).
Proof.
  intros H1 H2. induction H1; cbn [app]; try constructor; assumption.
Qed.

Lemma announced_exec_preceded evs :
  announced evs ->
  forall before c t after,
    evs = before ++ Exec c t :: after ->
    exists before',
      before = before' ++ [Log INFO "Executing: {}" [AStr c]].
Proof.
  induction 1 as [|l t0 a evs H IH|c0 t0 evs H IH];
    intros before c t after E.
  - now destruct before.
  - destruct before as [|e before]; cbn [app] in E; [discriminate E|].
    injection E as <- E. destruct (IH _ _ _ _ E) as [b' ->].
    now exists (Log l t0 a :: b').
  - destruct before as [|e before]; cbn [app] in E; [discriminate E|].
    injection E as <- E.
    destruct before as [|e before]; cbn [app] in E.
    + injection E as <- _ _. now exists [].
    + injection E as <- E. destruct (IH _ _ _ _ E) as [b' ->].
      now exists (Log INFO "Executing: {}" [AStr c0] :: Exec c0 t0 :: b').
Qed.

Section Announced.
Variable proc : World.

Ltac announce :=
  emits_auto announced_nil announced_app
    ltac:(repeat (apply announced_exec || constructor)).

Lemma run_acli_command_announced command dry timeout confirm :
  emits announced (run_acli_command proc command dry timeout confirm).
Proof. unfold run_acli_command. announce. Qed.

Lemma detach_vms_loop_announced vg_name vm_uuids dry success :
  emits announced (detach_vms_loop proc vg_name vm_uuids dry success).
Proof.
  pose proof run_acli_command_announced as Hrun.
  revert success. induction vm_uuids as [|u rest IH]; intros success;
    cbn [detach_vms_loop]; announce.
Qed.

Lemma detach_disks_loop_announced vg_name disk_indexes dry success :
  emits announced (detach_disks_loop proc vg_name disk_indexes dry success).
Proof.
  pose proof run_acli_command_announced as Hrun.
  revert success. induction disk_indexes as [|d rest IH]; intros success;
    cbn [detach_disks_loop]; announce.
Qed.

Lemma process_vg_announced args vg_name :
  emits announced (process_vg proc args vg_name).
Proof.
  pose proof run_acli_command_announced as Hrun.
  pose proof detach_vms_loop_announced as Hvms.
  pose proof detach_disks_loop_announced as Hdisks.
  unfold process_vg, main_teardown, main_attached_vms, main_disk_indexes,
    get_vg_vms, get_vg_disks, detach_vms, detach_disks, delete_vg.
  announce.
Qed.

Lemma main_loop_announced args target_vgs counts :
  emits announced (main_loop proc args target_vgs counts).
Proof.
  pose proof process_vg_announced as Hvg.
  revert counts. induction target_vgs as [|vg rest IH]; intros counts;
    cbn [main_loop]; announce.
Qed.

Lemma main_announced args : emits announced (main proc args).
Proof.
  pose proof run_acli_command_announced as Hrun.
  pose proof main_loop_announced as Hloop.
  unfold main, main_banner, main_list_vgs, main_summary, get_volume_groups.
  announce.
Qed.

End Announced.

(** X16. In the trace of a run every command that is run comes right after
    the record [Executing: ...] that announces this command. *)
Theorem X16_every_command_is_announced :
  forall (proc : World) (args : Args),
    announced (snd (main proc args [])) /\
    forall before c t after,
      snd (main proc args []) = before ++ Exec c t :: after ->
      exists before',
        before = before' ++ [Log INFO "Executing: {}" [AStr c]].
Proof.
  intros proc args.
  assert (H : announced (snd (main proc args []))).
  { destruct (main_announced proc args []) as [evs [-> H]]. exact H. }
  split; [exact H | now apply announced_exec_preceded].
Qed.

Lemma X16_announced_witness :
  exists before',
    [Log INFO "Running in LIVE mode - changes will be applied" [];
     Log INFO "Targeting VGs with prefix: {}" [AStr "TEST-"];
     Log INFO "Command timeout set to {} seconds" [AInt 60];
     Log INFO "Retrieving list of volume groups..." [];
     Log INFO "Executing: {}" [AStr "acli vg.list"]] =
    before' ++ [Log INFO "Executing: {}" [AStr "acli vg.list"]].
Proof.
  destruct (X16_every_command_is_announced Lab.empty_cluster Lab.live_args)
    as [_ H].
  apply (H _ "acli vg.list"%string 30%Z
           [Log INFO "No volume groups found or unable to retrieve the list"
              []]).
  reflexivity.
Defined.

(** *** The iterations of a run *)

Lemma emits_bind_mixed (R1 R2 R3 : list Event -> Prop) {A B}
    (m : M A) (k : A -> M B) :
  (forall e1 e2, R1 e1 -> R2 e2 -> R3 (e1 ++ e2)) ->
  emits R1 m -> (forall a, emits R2 (k a)) -> emits R3 (bind m k).
Proof.
  intros H Hm Hk tr. unfold bind. destruct (Hm tr) as [e1 [E1 H1]].
  destruct (m tr) as [a tr1]. cbn [snd] in E1. subst tr1.
  destruct (Hk a (tr ++ e1)) as [e2 [E2 H2]].
  exists (e1 ++ e2). rewrite E2, app_assoc. split; [reflexivity|].
  now apply H.
Qed.

Lemma processed_app tr1 tr2 :
  processed (tr1 ++ tr2) = processed tr1 ++ processed tr2.
Proof. unfold processed. apply flat_map_app. Qed.

Lemma emits_processed {A} (m : M A) names tr :
  emits (fun evs => processed evs = names) m ->
  processed (snd (m tr)) = processed tr ++ names.
Proof.
  intros H. destruct (H tr) as [evs [-> E]]. now rewrite processed_app, E.
Qed.

Section Iterations.
Variable proc : World.

Lemma quiet_nil : quiet [].
Proof. reflexivity. Qed.

Lemma quiet_app e1 e2 : quiet e1 -> quiet e2 -> quiet (e1 ++ e2).
Proof. unfold quiet. intros H1 H2. now rewrite processed_app, H1, H2. Qed.

Ltac hush := emits_auto quiet_nil quiet_app ltac:(reflexivity).

Lemma run_acli_command_quiet command dry timeout confirm :
  emits quiet (run_acli_command proc command dry timeout confirm).
Proof. unfold run_acli_command. hush. Qed.

Lemma detach_vms_loop_quiet vg_name vm_uuids dry success :
  emits quiet (detach_vms_loop proc vg_name vm_uuids dry success).
Proof.
  pose proof run_acli_command_quiet as Hrun.
  revert success. induction vm_uuids as [|u rest IH]; intros success;
    cbn [detach_vms_loop]; hush.
Qed.

Lemma detach_disks_loop_quiet vg_name disk_indexes dry success :
  emits quiet (detach_disks_loop proc vg_name disk_indexes dry success).
Proof.
  pose proof run_acli_command_quiet as Hrun.
  revert success. induction disk_indexes as [|d rest IH]; intros success;
    cbn [detach_disks_loop]; hush.
Qed.

Lemma process_vg_opens_one args vg_name :
  emits (fun evs => processed evs = [[AStr vg_name]])
    (process_vg proc args vg_name).
Proof.
  pose proof run_acli_command_quiet as Hrun.
  pose proof detach_vms_loop_quiet as Hvms.
  pose proof detach_disks_loop_quiet as Hdisks.
  unfold process_vg.
  apply (emits_bind_mixed (fun evs => processed evs = [[AStr vg_name]]) quiet).
  - intros e1 e2 H1 H2. now rewrite processed_app, H1, H2.
  - apply emits_log. reflexivity.
  - intros _.
    unfold main_teardown, main_attached_vms, main_disk_indexes,
      get_vg_vms, get_vg_disks, detach_vms, detach_disks, delete_vg.
    hush.
Qed.

Lemma main_loop_opens_each args target_vgs counts :
  emits (fun evs => processed evs = map (fun n => [AStr n]) target_vgs)
    (main_loop proc args target_vgs counts).
Proof.
  revert counts. induction target_vgs as [|vg rest IH]; intros counts;
    cbn [main_loop map].
  - apply emits_ret. reflexivity.
  - apply (emits_bind_mixed
             (fun evs => processed evs = [[AStr vg]])
             (fun evs => processed evs = map (fun n => [AStr n]) rest)).
    + intros e1 e2 H1 H2. now rewrite processed_app, H1, H2.
    + apply process_vg_opens_one.
    + intros o. apply IH.
Qed.

Lemma main_prelude_quiet args :
  emits quiet (main_banner args) /\
  emits quiet (main_list_vgs proc args) /\
  forall target_vgs counts, emits quiet (main_summary args target_vgs counts).
Proof.
  pose proof run_acli_command_quiet as Hrun.
  split; [|split; [|intros target_vgs counts]];
    unfold main_banner, main_list_vgs, main_summary, get_volume_groups;
    hush.
Qed.

End Iterations.

(** X17. A run opens one iteration for each volume group that starts with
    the prefix, in the order of the list, and no other iteration. *)
Theorem X17_one_iteration_per_candidate_in_order :
  forall (proc : World) (args : Args),
    processed (snd (main proc args [])) =
    map (fun n => [AStr n]) (main_targets proc args []).
Proof.
  intros proc args.
  destruct (main_prelude_quiet proc args) as [Hb [Hl Hs]].
  assert (H1 : processed
                 (snd (main_list_vgs proc args (snd (main_banner args []))))
               = []).
  { rewrite (emits_processed _ [] _ Hl), (emits_processed _ [] _ Hb).
    reflexivity. }
  destruct (main_cases proc args []) as [[Ht Hcase] | [_ Hcase]].
  - rewrite Ht. destruct Hcase as [[_ [_ ->]] | ->]; cbn [snd map];
      rewrite !processed_app, H1; reflexivity.
  - rewrite Hcase.
    match goal with
    | |- context [main_loop proc args ?ts ?c ?t] =>
        pose proof (emits_processed _ _ t (main_loop_opens_each proc args ts c))
          as H2;
        destruct (main_loop proc args ts c t) as [counts tr4]
    end.
    cbn [snd] in H2.
    rewrite (emits_processed _ [] _ (Hs _ _)), H2, !processed_app, H1.
    cbn [app]. now rewrite app_nil_r.
Qed.

(** ** The command executor *)

(** X18. A dry call of [run_acli_command] runs nothing, logs the command
    without the piped confirmation and never returns [None].  A live call
    runs one command, with the timeout it is given and with the piped
    confirmation exactly when [confirm] is set; it returns [None] exactly
    when the process ends with a return code that is not zero or raises,
    so a timeout is not a failure. *)
Theorem X18_run_acli_command_contract :
  forall (proc : World) (command : string) (timeout : Z) (confirm : bool)
         (tr : list Event),
    run_acli_command proc command true timeout confirm tr =
    (Some "[DRY RUN] Command not executed"%string,
     tr ++ [Log INFO "[DRY RUN] Would execute: {}"
              [AStr ("acli " ++ command)]]) /\
    executed (snd (run_acli_command proc command false timeout confirm tr)) =
    executed tr
    ++ [((if confirm then "echo yes | acli " ++ command
          else "acli " ++ command)%string, timeout)] /\
    (fst (run_acli_command proc command false timeout confirm tr) = None <->
     (exists returncode stdout stderr,
         proc (executed tr) (shell_command command confirm) timeout =
         Completed returncode stdout stderr /\ returncode <> 0%Z)
     \/ (exists e,
            proc (executed tr) (shell_command command confirm) timeout =
            Raised e)).
Proof.
  intros proc command timeout confirm tr.
  split; [apply run_acli_command_dry|].
  split; [apply run_acli_command_live_executed|].
  rewrite run_acli_command_live_fst.
  destruct (proc _ _ _) as [rc out err| |e]; cbn [acli_result].
  - destruct (Z.eqb_spec rc 0) as [-> | Hrc]; split.
    + discriminate.
    + intros [[rc [o [e [E H]]]] | [e E]]; [|discriminate E].
      injection E as <- _ _. contradiction.
    + intros _. left. now exists rc, out, err.
    + reflexivity.
  - split; [discriminate|]. intros [[rc [o [e [E _]]]] | [e E]]; discriminate E.
  - split; [|reflexivity]. intros _. right. now exists e.
Qed.
